(** * Crazy Ones: the card game engine of [src/App.tsx] and [src/utils/gameLogic.ts]

    A shallow embedding of the reducer-driven game engine (deck creation,
    shuffle, move legality, the computer's move chooser, the [gameReducer]
    transition function and the dispatching handlers of the component)
    together with the properties of the engine stated in the specification. *)

From Stdlib Require Import DecimalString ZArith Permutation Lia.
From stdpp Require Import base list strings.

Open Scope string_scope.
Open Scope nat_scope.
Open Scope list_scope.

(** ** Card domain ([types.ts]) *)

Inductive Suit := hearts | diamonds | clubs | spades.

Inductive Rank := RA | R2 | R3 | R4 | R5 | R6 | R7 | R8 | R9 | R10 | RJ | RQ | RK.

Inductive GameStatus := menu | playing | gameOver.

Inductive Participant := player | ai.

#[global] Instance Suit_eq_dec : EqDecision Suit.
Proof. solve_decision. Defined.

#[global] Instance Rank_eq_dec : EqDecision Rank.
Proof. solve_decision. Defined.

#[global] Instance GameStatus_eq_dec : EqDecision GameStatus.
Proof. solve_decision. Defined.

#[global] Instance Participant_eq_dec : EqDecision Participant.
Proof. solve_decision. Defined.

Record CardData := mkCardData {
  id : string;
  suit : Suit;
  rank : Rank;
  value : Z
}.

(** The string each union member is written as in the source. *)
Definition suitStr (s : Suit) : string :=
  match s with
  | hearts => "hearts" | diamonds => "diamonds" | clubs => "clubs" | spades => "spades"
  end.

Definition rankStr (r : Rank) : string :=
  match r with
  | RA => "A" | R2 => "2" | R3 => "3" | R4 => "4" | R5 => "5" | R6 => "6" | R7 => "7"
  | R8 => "8" | R9 => "9" | R10 => "10" | RJ => "J" | RQ => "Q" | RK => "K"
  end.

(** [c.rank === 'A'] *)
Definition isAce (c : CardData) : bool := bool_decide (rank c = RA).

(** The (suit, rank) pair printed on a card. *)
Definition face (c : CardData) : Suit * Rank := (suit c, rank c).

(** ** Ambient effects

    [Math.random()] yields a number in the half-open interval from 0 to 1;
    it is modelled as the fraction [u_num / (u_num + 1 + u_gap)], and
    [Math.floor(Math.random() * n)] as the exact floor of the product (the
    rounding of the floating-point product is not modelled).
    A [World] lists the successive results of [Math.random()] and of
    [Date.now()] seen by one call into the engine. *)

Record U01 := mkU01 { u_num : nat; u_gap : nat }.

Definition floorMul (u : U01) (n : nat) : nat :=
  (u_num u * n) / (u_num u + S (u_gap u)).

Record World := mkWorld {
  random : nat -> U01;
  now : nat -> N
}.

(** ** Deck model ([utils/gameLogic.ts]) *)

Definition SUITS : list Suit := [hearts; diamonds; clubs; spades].
Definition RANKS : list Rank := [RA; R2; R3; R4; R5; R6; R7; R8; R9; R10; RJ; RQ; RK].

Definition natStr (n : nat) : string := NilEmpty.string_of_uint (Nat.to_uint n).
Definition timeStr (t : N) : string := NilEmpty.string_of_uint (N.to_uint t).

(** [`${rank}-${suit}-${idCounter++}-${Date.now()}`] *)
Definition mkId (r : Rank) (s : Suit) (idCounter : nat) (t : N) : string :=
  (rankStr r ++ "-" ++ suitStr s ++ "-" ++ natStr idCounter ++ "-" ++ timeStr t)%string.

Definition rankValue (r : Rank) : Z :=
  match r with
  | RA => 1
  | RJ | RQ | RK => 10
  | R2 => 2 | R3 => 3 | R4 => 4 | R5 => 5 | R6 => 6 | R7 => 7 | R8 => 8 | R9 => 9
  | R10 => 10
  end.

Definition newCard (w : World) (s : Suit) (r : Rank) (idCounter : nat) : CardData :=
  {| id := mkId r s idCounter (now w idCounter);
     suit := s; rank := r; value := rankValue r |}.

(** The two nested [forEach] loops of [createDeck], threading the deck built
    so far and [idCounter]. *)
Definition pushRanks (w : World) (s : Suit) (acc : list CardData * nat)
  : list CardData * nat :=
  fold_left (fun '(deck, idCounter) r => (deck ++ [newCard w s r idCounter], S idCounter))
            RANKS acc.

Definition orderedDeck (w : World) : list CardData :=
  fst (fold_left (fun acc s => pushRanks w s acc) SUITS ([], 0)).

(** [[newDeck[i], newDeck[j]] = [newDeck[j], newDeck[i]]]; both indices are
    in range at every call site (out of range the array is left as it is
    here, where JavaScript would extend it). *)
Definition swap {A} (i j : nat) (l : list A) : list A :=
  match l !! i, l !! j with
  | Some a, Some b => <[j := a]> (<[i := b]> l)
  | _, _ => l
  end.

(** The [for] loop of [shuffle]: [i] counts down to 1, [k] is the number of
    [Math.random()] calls made so far. *)
Fixpoint shuffleLoop (w : World) (k i : nat) (newDeck : list CardData) : list CardData :=
  match i with
  | 0 => newDeck
  | S i' =>
      let j := floorMul (random w k) (i + 1) in
      shuffleLoop w (S k) i' (swap i j newDeck)
  end.

Definition shuffle (w : World) (deck : list CardData) : list CardData :=
  shuffleLoop w 0 (length deck - 1) deck.

Definition createDeck (w : World) : list CardData := shuffle w (orderedDeck w).

(** ** Move legality *)

Definition isValidMove (card topCard : option CardData) (currentSuit : option Suit) : bool :=
  match card with
  | None => false
  | Some card =>
      if isAce card then true
      else match topCard with
           | None => true
           | Some topCard =>
               let targetSuit := match currentSuit with
                                 | Some s => s
                                 | None => suit topCard
                                 end in
               bool_decide (suit card = targetSuit) || bool_decide (rank card = rank topCard)
           end
  end.

(** ** The computer's move chooser

    [r] is the value [Math.random()] returns if it is called. *)
Definition normalMoves (hand : list CardData) (topCard : option CardData)
    (currentSuit : option Suit) : list CardData :=
  List.filter (fun c => negb (isAce c) && isValidMove (Some c) topCard currentSuit) hand.

Definition getAiMove (r : U01) (hand : list CardData) (topCard : option CardData)
    (currentSuit : option Suit) : option CardData :=
  match hand, topCard with
  | [], _ | _, None => None
  | _, Some _ =>
      let normal := normalMoves hand topCard currentSuit in
      if 0 <? length normal then normal !! floorMul r (length normal)
      else List.find isAce hand
  end.

(** ** Game state and intents ([App.tsx]) *)

Record GameState := mkGameState {
  status : GameStatus;
  deck : list CardData;
  playerHand : list CardData;
  aiHand : list CardData;
  discardPile : list CardData;
  turn : Participant;
  currentSuit : option Suit;
  message : string;
  isAiThinking : bool;
  showSuitPicker : bool
}.

Inductive GameAction :=
| START_GAME
| PLAYER_PLAY (card : CardData)
| AI_PLAY (card : CardData)
| DRAW (who : Participant)
| SET_SUIT (suit : Suit)
| SET_MENU
| SET_AI_THINKING (value : bool)
| SKIP_TURN (who : Participant).

Definition initialState : GameState :=
  {| status := menu; deck := []; playerHand := []; aiHand := []; discardPile := [];
     turn := player; currentSuit := None; message := "";
     isAiThinking := false; showSuitPicker := false |}.

(** [Array.prototype.pop]: the last element and the array without it;
    [None] stands for the [undefined] an empty array gives. *)
Definition pop {A} (l : list A) : option (A * list A) :=
  match last l with
  | Some x => Some (x, removelast l)
  | None => None
  end.

(** [c.id !== card.id] *)
Definition otherId (card c : CardData) : bool := negb (String.eqb (id c) (id card)).

(** The [while (firstDiscard.rank === 'A')] loop of [START_GAME] on the pair
    ([newDeck], [firstDiscard]); [None] when the fuel runs out. *)
Fixpoint seedLoop (fuel : nat) (newDeck : list CardData) (firstDiscard : CardData)
  : option (list CardData * CardData) :=
  match fuel with
  | 0 => None
  | S fuel' =>
      if isAce firstDiscard then
        match pop (firstDiscard :: newDeck) with
        | Some (firstDiscard', newDeck') => seedLoop fuel' newDeck' firstDiscard'
        | None => None
        end
      else Some (newDeck, firstDiscard)
  end.

(** The [START_GAME] case.  [None] stands for a run without a resulting
    state: [pop] of an empty array followed by [.rank], or a seed loop that
    does not end.  The loop is given one round more than the pile has
    cards, which is enough whenever it ends at all
    ([seedLoop_fuel_complete]). *)
Definition startGame (w : World) : option GameState :=
  let newDeck := createDeck w in
  let pHand := take 8 newDeck in
  let newDeck := drop 8 newDeck in
  let aHand := take 8 newDeck in
  let newDeck := drop 8 newDeck in
  match pop newDeck with
  | None => None
  | Some (firstDiscard, newDeck) =>
      match seedLoop (S (length newDeck)) newDeck firstDiscard with
      | None => None
      | Some (newDeck, firstDiscard) =>
          Some {| status := playing;
                  deck := newDeck;
                  playerHand := pHand;
                  aiHand := aHand;
                  discardPile := [firstDiscard];
                  turn := turn initialState;
                  currentSuit := currentSuit initialState;
                  message := "你的回合！";
                  isAiThinking := isAiThinking initialState;
                  showSuitPicker := showSuitPicker initialState |}
      end
  end.

Definition playerPlay (state : GameState) (card : CardData) : GameState :=
  let newHand := List.filter (otherId card) (playerHand state) in
  let isGameOver := bool_decide (length newHand = 0) in
  {| status := if isGameOver then gameOver else status state;
     deck := deck state;
     playerHand := newHand;
     aiHand := aiHand state;
     discardPile := discardPile state ++ [card];
     turn := if isGameOver || isAce card then player else ai;
     currentSuit := if isAce card then currentSuit state else None;
     message := if isGameOver then "你赢了！"
                else if isAce card then "请选择花色" else "AI 正在思考...";
     isAiThinking := isAiThinking state;
     showSuitPicker := negb isGameOver && isAce card |}.

Definition aiPlay (state : GameState) (card : CardData) : GameState :=
  let newHand := List.filter (otherId card) (aiHand state) in
  let isGameOver := bool_decide (length newHand = 0) in
  {| status := if isGameOver then gameOver else status state;
     deck := deck state;
     playerHand := playerHand state;
     aiHand := newHand;
     discardPile := discardPile state ++ [card];
     turn := player;
     currentSuit := if isAce card then currentSuit state else None;
     message := if isGameOver then "AI 赢了" else "你的回合！";
     isAiThinking := isAiThinking state;
     showSuitPicker := showSuitPicker state |}.

(** The [DRAW] case.  [pop] of the copied pile cannot give [undefined] past
    the length check; that branch leaves the state as it is. *)
Definition draw (state : GameState) (who : Participant) : GameState :=
  if bool_decide (length (deck state) = 0) then state else
  match pop (deck state) with
  | None => state
  | Some (drawnCard, newDeck) =>
      match who with
      | player =>
          {| status := status state;
             deck := newDeck;
             playerHand := playerHand state ++ [drawnCard];
             aiHand := aiHand state;
             discardPile := discardPile state;
             turn := ai;
             currentSuit := currentSuit state;
             message := "你摸了一张牌。AI 思考中...";
             isAiThinking := isAiThinking state;
             showSuitPicker := showSuitPicker state |}
      | ai =>
          {| status := status state;
             deck := newDeck;
             playerHand := playerHand state;
             aiHand := aiHand state ++ [drawnCard];
             discardPile := discardPile state;
             turn := player;
             currentSuit := currentSuit state;
             message := "AI 摸了一张牌。你的回合！";
             isAiThinking := isAiThinking state;
             showSuitPicker := showSuitPicker state |}
      end
  end.

Definition setSuit (state : GameState) (s : Suit) : GameState :=
  {| status := status state; deck := deck state; playerHand := playerHand state;
     aiHand := aiHand state; discardPile := discardPile state;
     turn := ai;
     currentSuit := Some s;
     message := "已指定花色. AI 思考中...";
     isAiThinking := isAiThinking state;
     showSuitPicker := false |}.

Definition setAiThinking (state : GameState) (v : bool) : GameState :=
  {| status := status state; deck := deck state; playerHand := playerHand state;
     aiHand := aiHand state; discardPile := discardPile state;
     turn := turn state; currentSuit := currentSuit state; message := message state;
     isAiThinking := v;
     showSuitPicker := showSuitPicker state |}.

Definition skipTurn (state : GameState) (who : Participant) : GameState :=
  {| status := status state; deck := deck state; playerHand := playerHand state;
     aiHand := aiHand state; discardPile := discardPile state;
     turn := match who with player => ai | ai => player end;
     currentSuit := currentSuit state;
     message := "摸牌堆已空，跳过回合！";
     isAiThinking := isAiThinking state;
     showSuitPicker := showSuitPicker state |}.

(** The transition function.  Only [START_GAME] reads the world. *)
Definition gameReducer (w : World) (state : GameState) (action : GameAction)
  : option GameState :=
  match action with
  | START_GAME => startGame w
  | PLAYER_PLAY card => Some (playerPlay state card)
  | AI_PLAY card => Some (aiPlay state card)
  | DRAW who => Some (draw state who)
  | SET_SUIT s => Some (setSuit state s)
  | SET_MENU => Some initialState
  | SET_AI_THINKING v => Some (setAiThinking state v)
  | SKIP_TURN who => Some (skipTurn state who)
  end.

(** ** The dispatching callers in [GameContent] *)

(** [state.discardPile[state.discardPile.length - 1]] *)
Definition topCard (state : GameState) : option CardData := last (discardPile state).

(** A run of [dispatch] calls, each applied to the state the previous one left. *)
Fixpoint dispatchAll (w : World) (state : GameState) (actions : list GameAction)
  : option GameState :=
  match actions with
  | [] => Some state
  | a :: rest =>
      match gameReducer w state a with
      | Some state' => dispatchAll w state' rest
      | None => None
      end
  end.

Definition handlePlayerPlay (w : World) (state : GameState) (card : CardData)
  : option GameState :=
  if negb (bool_decide (status state = playing))
     || negb (bool_decide (turn state = player))
     || isAiThinking state
  then Some state
  else if isValidMove (Some card) (topCard state) (currentSuit state)
       then gameReducer w state (PLAYER_PLAY card)
       else Some state.

(** A click on the draw pile.  The [Card] component drops [onClick] while
    it is [disabled]. *)
Definition drawPileClick (w : World) (state : GameState) : option GameState :=
  if negb (bool_decide (turn state = player)) || isAiThinking state
  then Some state
  else if bool_decide (turn state = player)
       then gameReducer w state (DRAW player)
       else Some state.

(** A click on a suit of the suit picker, which is rendered only while
    [showSuitPicker] holds. *)
Definition suitPickerClick (w : World) (state : GameState) (s : Suit)
  : option GameState :=
  if showSuitPicker state then gameReducer w state (SET_SUIT s) else Some state.

(** A click on the [i]-th card of the player's hand as rendered. *)
Definition handCardClick (w : World) (state : GameState) (i : nat) : option GameState :=
  match playerHand state !! i with
  | Some card =>
      if negb (bool_decide (turn state = player)) || isAiThinking state
      then Some state
      else handlePlayerPlay w state card
  | None => Some state
  end.

(** What the timer callback of the computer's turn dispatches, from the
    snapshot [state] it closed over, the component still being mounted.  When the chosen move is an Ace,
    [getAiMove] has made no [Math.random()] call, so the suit is drawn from
    the first one; the index computed from it is below 4 ([floorMul_lt]). *)
Definition aiTimerDispatches (w : World) (state : GameState) : list GameAction :=
  if negb (bool_decide (status state = playing)) || negb (bool_decide (turn state = ai))
  then []
  else
    match getAiMove (random w 0) (aiHand state) (topCard state) (currentSuit state) with
    | Some move =>
        AI_PLAY move ::
        (if isAce move
         then [SET_SUIT (default hearts (SUITS !! floorMul (random w 0) (length SUITS)))]
         else [])
        ++ [SET_AI_THINKING false]
    | None =>
        (if 0 <? length (deck state) then DRAW ai else SKIP_TURN ai)
        :: [SET_AI_THINKING false]
    end.

(** The effect that runs the computer's turn: it marks the computer as
    thinking, and when the timer fires the callback's dispatches follow. *)
Definition aiEffect (w : World) (state : GameState) : option GameState :=
  if bool_decide (status state = playing) && bool_decide (turn state = ai)
     && negb (isAiThinking state)
  then dispatchAll w state (SET_AI_THINKING true :: aiTimerDispatches w state)
  else Some state.

(** ** Sample data used by the closed examples *)

Definition w0 : World :=
  {| random := fun _ => mkU01 0 0; now := fun _ => 1700000000000%N |}.

Definition aceHearts : CardData := newCard w0 hearts RA 0.
Definition nineHearts : CardData := newCard w0 hearts R9 8.
Definition sevenDiamonds : CardData := newCard w0 diamonds R7 19.
Definition kingDiamonds : CardData := newCard w0 diamonds RK 25.
Definition fiveClubs : CardData := newCard w0 clubs R5 30.
Definition aceSpades : CardData := newCard w0 spades RA 39.
Definition threeSpades : CardData := newCard w0 spades R3 41.

(** The player to move on a nine of hearts, hearts declared earlier. *)
Definition playerToMove : GameState :=
  {| status := playing;
     deck := [kingDiamonds; threeSpades];
     playerHand := [aceSpades; fiveClubs];
     aiHand := [sevenDiamonds; aceHearts];
     discardPile := [nineHearts];
     turn := player;
     currentSuit := Some hearts;
     message := "AI 摸了一张牌。你的回合！";
     isAiThinking := false;
     showSuitPicker := false |}.

(** The computer to move on a nine of hearts, holding one Ace and nothing
    else it can play. *)
Definition aiToMove : GameState :=
  {| status := playing;
     deck := [kingDiamonds; threeSpades];
     playerHand := [aceSpades; fiveClubs];
     aiHand := [sevenDiamonds; aceHearts];
     discardPile := [nineHearts];
     turn := ai;
     currentSuit := None;
     message := "AI 正在思考...";
     isAiThinking := false;
     showSuitPicker := false |}.

(** The same table with nothing left to draw. *)
Definition drawPileEmpty : GameState :=
  {| status := playing;
     deck := [];
     playerHand := [aceSpades; fiveClubs];
     aiHand := [sevenDiamonds; aceHearts];
     discardPile := [kingDiamonds; threeSpades; nineHearts];
     turn := player;
     currentSuit := None;
     message := "你的回合！";
     isAiThinking := false;
     showSuitPicker := false |}.

(** The player holds a last card that matches the top card. *)
Definition playerLastCard : GameState :=
  {| status := playing;
     deck := [kingDiamonds; threeSpades];
     playerHand := [fiveClubs];
     aiHand := [sevenDiamonds; aceHearts];
     discardPile := [nineHearts; newCard w0 clubs R9 34];
     turn := player;
     currentSuit := None;
     message := "你的回合！";
     isAiThinking := false;
     showSuitPicker := false |}.

(** The terminal state the player reaches by playing that last card. *)
Definition playerWon : GameState := playerPlay playerLastCard fiveClubs.

(** The two hands of a state. *)
Definition hands (state : GameState) : list CardData * list CardData :=
  (playerHand state, aiHand state).

(** ** The card-conservation invariant *)

(** The four zones of a state, laid end to end. *)
Definition zones (state : GameState) : list CardData :=
  deck state ++ playerHand state ++ aiHand state ++ discardPile state.

(** The 52 (suit, rank) pairs. *)
Definition domain52 : list (Suit * Rank) := list_prod SUITS RANKS.

(** Every pair of the domain is in exactly one place, and no card identity
    occurs twice. *)
Definition zonesComplete (state : GameState) : Prop :=
  Permutation (map face (zones state)) domain52 /\ NoDup (map id (zones state)).

(** The played card of a play intent is in the acting hand; a return to the
    menu ends the game. *)
Definition held (state : GameState) (action : GameAction) : Prop :=
  match action with
  | PLAYER_PLAY card => In card (playerHand state)
  | AI_PLAY card => In card (aiHand state)
  | SET_MENU => False
  | _ => True
  end.

(** States of a game in progress: a fresh deal from any state and any
    world, followed by transitions whose intent satisfies [held]. *)
Inductive reachable : GameState -> Prop :=
| reach_start (w : World) (state state' : GameState) :
    gameReducer w state START_GAME = Some state' -> reachable state'
| reach_step (w : World) (state state' : GameState) (action : GameAction) :
    reachable state -> held state action ->
    gameReducer w state action = Some state' -> reachable state'.

(** Cards whose identity was composed by [createDeck] from their own face. *)
Definition minted (c : CardData) : Prop :=
  exists n t, id c = mkId (rank c) (suit c) n t.

(** The deal the sample world gives, the king of hearts it deals to the
    computer, and the game two moves later: the player has drawn and the
    computer has played that king on the king of spades. *)
Definition freshGame : GameState := default initialState (startGame w0).

Definition kingHearts : CardData := newCard w0 hearts RK 12.

Definition twoMovesIn : GameState := aiPlay (draw freshGame player) kingHearts.

(** ** The component's events *)

(** What the user and the timer can do to the component: the start and menu
    buttons, a click on the [i]-th card of the hand, on the draw pile or on
    a suit of the picker, and the computer's turn running to its end. *)
Inductive UiEvent :=
| ClickStart
| ClickMenu
| ClickHandCard (i : nat)
| ClickDrawPile
| ClickSuit (s : Suit)
| AiTimer.

Definition uiStep (w : World) (state : GameState) (e : UiEvent) : option GameState :=
  match e with
  | ClickStart => gameReducer w state START_GAME
  | ClickMenu => gameReducer w state SET_MENU
  | ClickHandCard i => handCardClick w state i
  | ClickDrawPile => drawPileClick w state
  | ClickSuit s => suitPickerClick w state s
  | AiTimer => aiEffect w state
  end.

(** States the component can be in: [useReducer] starts from [initialState]
    and every event moves on from the state before. *)
Inductive uiReachable : GameState -> Prop :=
| ui_init : uiReachable initialState
| ui_step (w : World) (state state' : GameState) (e : UiEvent) :
    uiReachable state -> uiStep w state e = Some state' -> uiReachable state'.

(** States the transition function can produce from [initialState] under
    any run of intents, legal or not. *)
Inductive dispatched : GameState -> Prop :=
| disp_init : dispatched initialState
| disp_step (w : World) (state state' : GameState) (action : GameAction) :
    dispatched state -> gameReducer w state action = Some state' -> dispatched state'.

(** ** Win counters ([GameStats] and the effect on [state.status])

    The counters start at 0 and only ever go up by one, so they are kept as
    natural numbers. *)



(** The player to move with nothing to draw and no card to play. *)
Definition playerStuck : GameState :=
  {| status := playing;
     deck := [];
     playerHand := [fiveClubs; threeSpades];
     aiHand := [aceSpades; aceHearts];
     discardPile := [nineHearts; kingDiamonds; sevenDiamonds];
     turn := player;
     currentSuit := None;
     message := "AI 摸了一张牌。你的回合！";
     isAiThinking := false;
     showSuitPicker := false |}.

(** The player to move on the nine of clubs, holding a club. *)
Definition playerCanFollow : GameState :=
  {| status := playing;
     deck := [kingDiamonds];
     playerHand := [fiveClubs; threeSpades];
     aiHand := [sevenDiamonds; aceHearts];
     discardPile := [nineHearts; newCard w0 clubs R9 34];
     turn := player;
     currentSuit := None;
     message := "你的回合！";
     isAiThinking := false;
     showSuitPicker := false |}.

(** ** Properties *)

(** *** Random indices *)

Lemma floorMul_lt (u : U01) (n : nat) : 0 < n -> floorMul u n < n.
Proof.
  intros Hn. unfold floorMul.
  apply Nat.Div0.div_lt_upper_bound. nia.
Qed.

Lemma isAce_true (c : CardData) : isAce c = true <-> rank c = RA.
Proof. unfold isAce. apply bool_decide_eq_true. Qed.

Lemma isAce_false (c : CardData) : isAce c = false <-> rank c <> RA.
Proof. unfold isAce. apply bool_decide_eq_false. Qed.

(** *** Move legality *)

Lemma isValidMove_ace (c : CardData) top s :
  rank c = RA -> isValidMove (Some c) top s = true.
Proof. intros H. unfold isValidMove. apply isAce_true in H. now rewrite H. Qed.

Lemma isValidMove_no_declared (c top : CardData) :
  rank c <> RA ->
  isValidMove (Some c) (Some top) None = true <-> suit c = suit top \/ rank c = rank top.
Proof.
  intros H. apply isAce_false in H. unfold isValidMove. rewrite H.
  rewrite orb_true_iff, !bool_decide_eq_true. reflexivity.
Qed.

(** C6 (as amended): with a declared suit, a card is a valid move exactly
    when it is an Ace, or its suit is the declared suit, or its rank is the
    top card's rank. *)
Theorem isValidMove_declared (c top : CardData) (s : Suit) :
  isValidMove (Some c) (Some top) (Some s) = true
  <-> rank c = RA \/ suit c = s \/ rank c = rank top.
Proof.
  unfold isValidMove. destruct (isAce c) eqn:Ha.
  - apply isAce_true in Ha. tauto.
  - apply isAce_false in Ha.
    rewrite orb_true_iff, !bool_decide_eq_true. tauto.
Qed.

(** C6 as stated fails on an Ace: the Ace of spades is a valid move on a
    seven of diamonds with hearts declared, matching neither. *)
Lemma isValidMove_declared_ace_counterexample :
  isValidMove (Some aceSpades) (Some sevenDiamonds) (Some hearts) = true
  /\ ~ (suit aceSpades = hearts \/ rank aceSpades = rank sevenDiamonds).
Proof.
  split; [reflexivity |]. intros [H | H]; discriminate H.
Qed.

(** *** The computer's move chooser *)

Lemma normalMoves_spec hand top s (c : CardData) :
  In c (normalMoves hand top s)
  <-> In c hand /\ rank c <> RA /\ isValidMove (Some c) top s = true.
Proof.
  unfold normalMoves. rewrite filter_In, andb_true_iff, negb_true_iff, isAce_false.
  reflexivity.
Qed.

Lemma getAiMove_normal r hand (top : CardData) s :
  normalMoves hand (Some top) s <> [] ->
  exists c, getAiMove r hand (Some top) s = Some c
            /\ In c (normalMoves hand (Some top) s).
Proof.
  intros Hne. unfold getAiMove.
  destruct hand as [| h hand']; [now destruct Hne |].
  set (normal := normalMoves (h :: hand') (Some top) s) in *.
  assert (Hlen : 0 < length normal) by (destruct normal; [congruence | simpl; lia]).
  destruct (Nat.ltb_spec 0 (length normal)) as [_ | Hle]; [| lia].
  destruct (lookup_lt_is_Some_2 normal (floorMul r (length normal))) as [c Hc].
  { now apply floorMul_lt. }
  exists c. split; [exact Hc |].
  apply list_elem_of_In. eapply list_elem_of_lookup_2. exact Hc.
Qed.

Lemma getAiMove_no_top r hand s : getAiMove r hand None s = None.
Proof. now destruct hand. Qed.

Lemma getAiMove_wild r hand (top : CardData) s :
  normalMoves hand (Some top) s = [] ->
  getAiMove r hand (Some top) s = List.find isAce hand.
Proof.
  intros He. unfold getAiMove. destruct hand as [| h hand']; [reflexivity |].
  now rewrite He.
Qed.

Lemma find_isAce_None (hand : list CardData) :
  List.find isAce hand = None <-> forall c, In c hand -> rank c <> RA.
Proof.
  split.
  - intros H c Hin. apply isAce_false. eapply find_none; eauto.
  - intros H. induction hand as [| h t IH]; [reflexivity |]. simpl.
    destruct (isAce h) eqn:Hh.
    + apply isAce_true in Hh. exfalso. apply (H h); [now left | exact Hh].
    + apply IH. intros c Hc. apply H. now right.
Qed.

(** C7: the chooser only returns a card of the hand that is a valid move,
    and returns nothing exactly when no card of the hand is a valid move. *)
Theorem getAiMove_valid_and_complete r hand (top : CardData) s :
  (forall c, getAiMove r hand (Some top) s = Some c ->
             In c hand /\ isValidMove (Some c) (Some top) s = true)
  /\ (getAiMove r hand (Some top) s = None
      <-> forall c, In c hand -> isValidMove (Some c) (Some top) s = false).
Proof.
  destruct (normalMoves hand (Some top) s) as [| n ns] eqn:Hn.
  - rewrite (getAiMove_wild r hand top s Hn). split.
    + intros c Hc. apply find_some in Hc as [Hin Ha]. split; [exact Hin |].
      apply isValidMove_ace. now apply isAce_true.
    + rewrite find_isAce_None. split.
      * intros Hno c Hin. apply not_true_is_false. intros Hv.
        assert (Hc : In c (normalMoves hand (Some top) s)).
        { apply normalMoves_spec. auto. }
        rewrite Hn in Hc. exact Hc.
      * intros Hno c Hin Hr. specialize (Hno c Hin).
        rewrite (isValidMove_ace c (Some top) s Hr) in Hno. discriminate.
  - destruct (getAiMove_normal r hand top s) as [c [Hc Hin]]; [now rewrite Hn |].
    apply normalMoves_spec in Hin as (Hin & Hr & Hv). split.
    + intros c' Hc'. rewrite Hc in Hc'. injection Hc' as <-. auto.
    + split; [rewrite Hc; discriminate |].
      intros Hno. rewrite (Hno c Hin) in Hv. discriminate.
Qed.

(** C8: the chooser's priority order.  A valid non-Ace card of the hand is
    returned when there is one; failing that an Ace of the hand when there is
    one; failing that nothing. *)
Theorem getAiMove_priority r hand (top : CardData) s :
  let normal c := In c hand /\ rank c <> RA /\ isValidMove (Some c) (Some top) s = true in
  ((exists c, normal c) ->
   exists c, getAiMove r hand (Some top) s = Some c /\ normal c)
  /\ (~ (exists c, normal c) -> (exists a, In a hand /\ rank a = RA) ->
      exists a, getAiMove r hand (Some top) s = Some a /\ In a hand /\ rank a = RA)
  /\ (~ (exists c, normal c) -> (forall a, In a hand -> rank a <> RA) ->
      getAiMove r hand (Some top) s = None).
Proof.
  intros normal.
  assert (Hempty : ~ (exists c, normal c) -> normalMoves hand (Some top) s = []).
  { intros Hno. destruct (normalMoves hand (Some top) s) as [| n ns] eqn:Hn; [reflexivity |].
    exfalso. apply Hno. exists n. apply normalMoves_spec. rewrite Hn. now left. }
  repeat split.
  - intros [c Hc]. destruct (getAiMove_normal r hand top s) as [c' [Hc' Hin]].
    + intros He. apply normalMoves_spec in Hc. rewrite He in Hc. exact Hc.
    + exists c'. split; [exact Hc' |]. now apply normalMoves_spec.
  - intros Hno [a [Hin Ha]]. rewrite (getAiMove_wild r hand top s (Hempty Hno)).
    destruct (List.find isAce hand) as [x |] eqn:Hf.
    + apply find_some in Hf as [Hx1 Hx2]. exists x. rewrite isAce_true in Hx2. auto.
    + exfalso. rewrite find_isAce_None in Hf. exact (Hf a Hin Ha).
  - intros Hno Hna. rewrite (getAiMove_wild r hand top s (Hempty Hno)).
    now apply find_isAce_None.
Qed.

(** *** Single transitions *)

(** C10: a play of a card that is not an Ace, by either participant, leaves
    no declared suit. *)
Theorem play_non_ace_resets_suit (w : World) (state : GameState) (card : CardData) :
  rank card <> RA ->
  (currentSuit <$> gameReducer w state (PLAYER_PLAY card)) = Some None
  /\ (currentSuit <$> gameReducer w state (AI_PLAY card)) = Some None.
Proof.
  intros H. apply isAce_false in H. simpl. now rewrite H.
Qed.

Lemma play_non_ace_resets_suit_witness :
  (currentSuit <$> gameReducer w0 playerToMove (PLAYER_PLAY fiveClubs)) = Some None
  /\ (currentSuit <$> gameReducer w0 playerToMove (AI_PLAY fiveClubs)) = Some None.
Proof.
  apply (play_non_ace_resets_suit w0 playerToMove fiveClubs). discriminate.
Defined.

(** C4 (as amended): an Ace played from the player's hand that leaves cards
    in it opens the suit picker and keeps the turn with the player; the
    declared suit is left as it was. *)
Theorem player_ace_awaits_suit (w : World) (state : GameState) (card : CardData) :
  status state = playing ->
  In card (playerHand state) ->
  rank card = RA ->
  List.filter (otherId card) (playerHand state) <> [] ->
  exists state',
    gameReducer w state (PLAYER_PLAY card) = Some state'
    /\ currentSuit state' = currentSuit state
    /\ showSuitPicker state' = true
    /\ turn state' = player
    /\ status state' = playing.
Proof.
  intros Hst _ Hr Hne. apply isAce_true in Hr.
  eexists. split; [reflexivity |]. simpl. rewrite Hr.
  rewrite bool_decide_eq_false_2.
  - now rewrite orb_true_r.
  - intros Hl. apply Hne. now apply length_zero_iff_nil.
Qed.

Lemma player_ace_awaits_suit_witness :
  exists state',
    gameReducer w0 playerToMove (PLAYER_PLAY aceSpades) = Some state'
    /\ currentSuit state' = currentSuit playerToMove
    /\ showSuitPicker state' = true
    /\ turn state' = player
    /\ status state' = playing.
Proof.
  apply (player_ace_awaits_suit w0 playerToMove aceSpades).
  - reflexivity.
  - simpl. now left.
  - reflexivity.
  - vm_compute. discriminate.
Defined.

(** C4 as stated fails: the declared suit is not cleared by the Ace. *)
Lemma player_ace_suit_not_cleared_counterexample :
  status playerToMove = playing
  /\ In aceSpades (playerHand playerToMove)
  /\ rank aceSpades = RA
  /\ List.filter (otherId aceSpades) (playerHand playerToMove) <> []
  /\ (currentSuit <$> gameReducer w0 playerToMove (PLAYER_PLAY aceSpades))
     = Some (Some hearts).
Proof.
  repeat split; [simpl; now left | vm_compute; discriminate].
Qed.

Lemma setSuit_spec (w : World) (state : GameState) (s : Suit) :
  exists state',
    gameReducer w state (SET_SUIT s) = Some state'
    /\ currentSuit state' = Some s
    /\ showSuitPicker state' = false
    /\ turn state' = ai
    /\ zones state' = zones state.
Proof. eexists. repeat split. Qed.

Lemma setSuit_after_aiPlay_turn (state : GameState) (card : CardData) (s : Suit) :
  turn (aiPlay state card) = player /\ turn (setSuit (aiPlay state card) s) = ai.
Proof. split; reflexivity. Qed.

(** C3 at its failing input: the computer plays its Ace and declares a suit,
    and the turn is the computer's again. *)
Theorem ai_ace_declares_and_keeps_turn :
  aiTimerDispatches w0 aiToMove
  = [AI_PLAY aceHearts; SET_SUIT hearts; SET_AI_THINKING false]
  /\ (turn <$> dispatchAll w0 aiToMove [AI_PLAY aceHearts]) = Some player
  /\ (turn <$> dispatchAll w0 aiToMove [AI_PLAY aceHearts; SET_SUIT hearts]) = Some ai
  /\ (showSuitPicker <$> dispatchAll w0 aiToMove [AI_PLAY aceHearts]) = Some false
  /\ ((fun s => (status s, turn s, isAiThinking s)) <$> aiEffect w0 aiToMove)
     = Some (playing, ai, false).
Proof. repeat split. Qed.

(** *** Illegal intents *)

Lemma pop_nil {A} : pop (@nil A) = None.
Proof. reflexivity. Qed.

Lemma pop_snoc {A} (l : list A) (x : A) : pop (l ++ [x]) = Some (x, l).
Proof. unfold pop. now rewrite last_snoc, removelast_last. Qed.

Lemma pop_None {A} (l : list A) : pop l = None <-> l = [].
Proof.
  split; [| intros ->; reflexivity].
  destruct l as [| x l] using rev_ind; [reflexivity |].
  rewrite pop_snoc. discriminate.
Qed.

Lemma draw_empty (state : GameState) (who : Participant) :
  deck state = [] -> draw state who = state.
Proof. intros H. unfold draw. now rewrite H. Qed.

Lemma draw_nonempty (state : GameState) (who : Participant) :
  deck state <> [] ->
  exists drawnCard newDeck,
    deck state = newDeck ++ [drawnCard]
    /\ deck (draw state who) = newDeck
    /\ hands (draw state who)
       = match who with
         | player => (playerHand state ++ [drawnCard], aiHand state)
         | ai => (playerHand state, aiHand state ++ [drawnCard])
         end
    /\ discardPile (draw state who) = discardPile state
    /\ turn (draw state who) = match who with player => ai | ai => player end.
Proof.
  intros Hne. destruct (deck state) as [| x l _] eqn:Hd using rev_ind; [now destruct Hne |].
  exists x, l. unfold draw. rewrite Hd, pop_snoc.
  rewrite bool_decide_eq_false_2 by (rewrite length_app; simpl; lia).
  now destruct who.
Qed.

Lemma handlePlayerPlay_rejects (w : World) (state : GameState) (card : CardData) :
  status state <> playing \/ turn state <> player \/ isAiThinking state = true
  \/ isValidMove (Some card) (topCard state) (currentSuit state) = false ->
  handlePlayerPlay w state card = Some state.
Proof.
  unfold handlePlayerPlay. intros [H | [H | [H | H]]].
  - now rewrite (bool_decide_eq_false_2 _ H).
  - rewrite (bool_decide_eq_false_2 _ H). now rewrite orb_true_r.
  - rewrite H. now rewrite orb_true_r.
  - rewrite H. now destruct (_ || _).
Qed.

(** C1 (as amended): the transition function turns down a draw from an empty
    draw pile; the player's play handler turns down a play outside of a
    running game, out of turn, while the computer is thinking, or of a card
    that is not a valid move; the suit picker takes no declaration while no
    choice is pending; the draw pile takes no click out of turn.  The
    snapshot is then unchanged. *)
Theorem illegal_intents_rejected (w : World) (state : GameState) :
  (forall who, deck state = [] -> gameReducer w state (DRAW who) = Some state)
  /\ (forall card,
        status state <> playing \/ turn state <> player \/ isAiThinking state = true
        \/ isValidMove (Some card) (topCard state) (currentSuit state) = false ->
        handlePlayerPlay w state card = Some state)
  /\ (forall s, showSuitPicker state = false -> suitPickerClick w state s = Some state)
  /\ (turn state <> player \/ isAiThinking state = true ->
      drawPileClick w state = Some state).
Proof.
  repeat split.
  - intros who H. simpl. now rewrite draw_empty.
  - intros card. apply handlePlayerPlay_rejects.
  - intros s H. unfold suitPickerClick. now rewrite H.
  - unfold drawPileClick. intros [H | H].
    + now rewrite (bool_decide_eq_false_2 _ H).
    + rewrite H. now rewrite orb_true_r.
Qed.

Lemma illegal_intents_rejected_witness :
  gameReducer w0 drawPileEmpty (DRAW player) = Some drawPileEmpty
  /\ handlePlayerPlay w0 aiToMove fiveClubs = Some aiToMove
  /\ handlePlayerPlay w0 playerToMove fiveClubs = Some playerToMove
  /\ suitPickerClick w0 playerToMove spades = Some playerToMove
  /\ drawPileClick w0 aiToMove = Some aiToMove.
Proof.
  destruct (illegal_intents_rejected w0 drawPileEmpty) as (Hdraw & _).
  destruct (illegal_intents_rejected w0 aiToMove) as (_ & Hai & _ & Hclick).
  destruct (illegal_intents_rejected w0 playerToMove) as (_ & Hpl & Hpick & _).
  repeat apply conj.
  - apply Hdraw. reflexivity.
  - apply Hai. right. left. discriminate.
  - apply Hpl. do 3 right. reflexivity.
  - apply Hpick. reflexivity.
  - apply Hclick. left. discriminate.
Defined.

(** C1 as stated fails on the transition function: a play out of turn, a
    play of a card that is not a valid move, a suit declaration with no
    choice pending and a skip with cards left to draw all change the state. *)
Lemma illegal_intents_applied_counterexample :
  (turn aiToMove = ai
   /\ gameReducer w0 aiToMove (PLAYER_PLAY fiveClubs) <> Some aiToMove)
  /\ (isValidMove (Some fiveClubs) (topCard playerToMove) (currentSuit playerToMove) = false
      /\ gameReducer w0 playerToMove (PLAYER_PLAY fiveClubs) <> Some playerToMove)
  /\ (showSuitPicker playerToMove = false
      /\ gameReducer w0 playerToMove (SET_SUIT spades) <> Some playerToMove)
  /\ (deck playerToMove <> []
      /\ gameReducer w0 playerToMove (SKIP_TURN player) <> Some playerToMove).
Proof.
  repeat split; try discriminate;
    intros H; apply (f_equal (fmap (fun s => (turn s, length (discardPile s))))) in H;
    vm_compute in H; discriminate H.
Qed.

(** *** The terminal state *)

(** C5 (as amended): once the game is over, a skip changes neither hand, a
    draw from an empty draw pile changes nothing, and neither the player's
    play handler nor the computer's turn dispatches anything. *)
Theorem game_over_frozen (w : World) (state : GameState) :
  status state = gameOver ->
  (forall who, (hands <$> gameReducer w state (SKIP_TURN who)) = Some (hands state))
  /\ (forall who, deck state = [] -> gameReducer w state (DRAW who) = Some state)
  /\ (forall card, handlePlayerPlay w state card = Some state)
  /\ aiTimerDispatches w state = []
  /\ aiEffect w state = Some state.
Proof.
  intros Hst. repeat split.
  - intros who H. simpl. now rewrite draw_empty.
  - intros card. apply handlePlayerPlay_rejects. left. rewrite Hst. discriminate.
  - unfold aiTimerDispatches. now rewrite Hst.
  - unfold aiEffect. now rewrite Hst.
Qed.

Lemma game_over_frozen_witness :
  (forall who, (hands <$> gameReducer w0 playerWon (SKIP_TURN who)) = Some (hands playerWon))
  /\ (forall who, deck playerWon = [] -> gameReducer w0 playerWon (DRAW who) = Some playerWon)
  /\ (forall card, handlePlayerPlay w0 playerWon card = Some playerWon)
  /\ aiTimerDispatches w0 playerWon = []
  /\ aiEffect w0 playerWon = Some playerWon.
Proof.
  apply (game_over_frozen w0 playerWon). reflexivity.
Defined.

(** C5 as stated fails on the transition function: after the player's last
    card ended the game, a draw still adds a card to the player's hand and a
    play of a card the computer holds still removes it from that hand.  The
    click handler of the draw pile does not look at the status either. *)
Lemma game_over_not_frozen_counterexample :
  gameReducer w0 playerLastCard (PLAYER_PLAY fiveClubs) = Some playerWon
  /\ status playerWon = gameOver
  /\ hands playerWon = ([], [sevenDiamonds; aceHearts])
  /\ (hands <$> gameReducer w0 playerWon (DRAW player))
     = Some ([threeSpades], [sevenDiamonds; aceHearts])
  /\ (hands <$> gameReducer w0 playerWon (AI_PLAY sevenDiamonds))
     = Some ([], [aceHearts])
  /\ (hands <$> drawPileClick w0 playerWon)
     = Some ([threeSpades], [sevenDiamonds; aceHearts]).
Proof. repeat split. Qed.

(** *** The deck *)

Lemma swap_Permutation {A} (i j : nat) (l : list A) : swap i j l ≡ₚ l.
Proof.
  unfold swap. destruct (l !! i) as [a |] eqn:Hi; [| reflexivity].
  destruct (l !! j) as [b |] eqn:Hj; [| reflexivity].
  now apply Permutation_insert_swap.
Qed.

Lemma shuffleLoop_Permutation (w : World) (i k : nat) (l : list CardData) :
  shuffleLoop w k i l ≡ₚ l.
Proof.
  revert k l. induction i as [| i IH]; intros k l; simpl; [reflexivity |].
  rewrite IH. apply swap_Permutation.
Qed.

Lemma shuffle_Permutation (w : World) (l : list CardData) : shuffle w l ≡ₚ l.
Proof. apply shuffleLoop_Permutation. Qed.

Lemma orderedDeck_faces (w : World) : map face (orderedDeck w) = domain52.
Proof. reflexivity. Qed.

Lemma mkId_face_inj r s n t r' s' n' t' :
  mkId r s n t = mkId r' s' n' t' -> r = r' /\ s = s'.
Proof.
  unfold mkId. intros H.
  destruct r, r'; simpl in H; try discriminate H; (split; [reflexivity |]);
    injection H as H; destruct s, s'; simpl in H; try discriminate H; reflexivity.
Qed.

Lemma orderedDeck_minted (w : World) : Forall minted (orderedDeck w).
Proof.
  unfold orderedDeck. cbn -[newCard].
  repeat (constructor; [eexists _, _; reflexivity |]). constructor.
Qed.

Lemma NoDup_id_of_face (l : list CardData) :
  Forall minted l -> NoDup (map face l) -> NoDup (map id l).
Proof.
  induction 1 as [| c l Hc Hl IH]; simpl; intros Hnd; [constructor |].
  apply NoDup_cons in Hnd as [Hnin Hnd]. apply NoDup_cons. split; [| auto].
  intros Hin. apply Hnin. apply list_elem_of_In in Hin. apply list_elem_of_In.
  apply in_map_iff in Hin as [c' [Heq Hin']]. apply in_map_iff. exists c'. split; [| exact Hin'].
  rewrite Forall_forall in Hl. destruct (Hl c') as (n' & t' & Hid'). { now apply list_elem_of_In. }
  destruct Hc as (n & t & Hid). rewrite Hid, Hid' in Heq.
  apply mkId_face_inj in Heq as [Hr Hs]. unfold face. now rewrite Hr, Hs.
Qed.

Lemma domain52_NoDup : NoDup domain52.
Proof. apply (bool_decide_unpack (NoDup domain52)). vm_compute. exact I. Qed.

Lemma orderedDeck_ids (w : World) : NoDup (map id (orderedDeck w)).
Proof.
  apply NoDup_id_of_face; [apply orderedDeck_minted |].
  rewrite orderedDeck_faces. apply domain52_NoDup.
Qed.

(** *** Dealing *)

Lemma pop_Some {A} (l l' : list A) (x : A) : pop l = Some (x, l') -> l = l' ++ [x].
Proof.
  destruct l as [| y l _] using rev_ind; [discriminate |].
  rewrite pop_snoc. intros H. now injection H as -> ->.
Qed.

Lemma seedLoop_fuel_mono (m m' : nat) (d : list CardData) (c : CardData) r :
  seedLoop m d c = Some r -> m <= m' -> seedLoop m' d c = Some r.
Proof.
  revert m' d c. induction m as [| m IH]; intros m' d c H Hle; [discriminate |].
  destruct m' as [| m']; [lia |]. simpl in *.
  destruct (isAce c); [| exact H].
  destruct (pop (c :: d)) as [[x d'] |]; [| discriminate].
  apply IH; [exact H | lia].
Qed.

(** The loop on a pile whose top cards are Aces: they go to the bottom in
    the order they lay in, and the first card below them is the seed. *)
Lemma seedLoop_aces (aces : list CardData) :
  forall (fuel : nat) (pre : list CardData) (a c : CardData),
    Forall (fun x => isAce x = true) aces -> isAce a = true -> isAce c = false ->
    length aces + 2 <= fuel ->
    seedLoop fuel (pre ++ c :: aces) a = Some (aces ++ a :: pre, c).
Proof.
  induction aces as [| x aces IH] using rev_ind; intros fuel pre a c Hall Ha Hc Hfuel.
  - destruct fuel as [| [| fuel]]; simpl in Hfuel; try lia.
    simpl. rewrite Ha.
    change (a :: pre ++ [c]) with ((a :: pre) ++ [c]). rewrite pop_snoc.
    now rewrite Hc.
  - rewrite length_app in Hfuel. simpl in Hfuel.
    destruct fuel as [| fuel]; [lia |].
    apply Forall_app in Hall as [Hall Hx]. apply Forall_inv in Hx.
    simpl. rewrite Ha.
    replace (a :: pre ++ c :: aces ++ [x]) with (((a :: pre) ++ c :: aces) ++ [x])
      by (simpl; now rewrite <- app_assoc).
    rewrite pop_snoc. rewrite (IH fuel (a :: pre) x c Hall Hx Hc) by lia.
    now rewrite <- app_assoc.
Qed.

Lemma seedLoop_all_aces (fuel : nat) :
  forall (d : list CardData) (c : CardData),
    Forall (fun x => isAce x = true) (c :: d) -> seedLoop fuel d c = None.
Proof.
  induction fuel as [| fuel IH]; intros d c Hall; [reflexivity |].
  simpl. rewrite (Forall_inv Hall).
  destruct (pop (c :: d)) as [[x d'] |] eqn:Hp; [| reflexivity].
  apply pop_Some in Hp. apply IH. rewrite Hp in Hall.
  apply Forall_app in Hall as [Hd Hx]. apply Forall_inv in Hx.
  now constructor.
Qed.

(** A pile with a card that is not an Ace splits at the topmost such card. *)
Lemma split_top_aces (l : list CardData) :
  Exists (fun x => isAce x = false) l ->
  exists body c aces,
    l = body ++ c :: aces /\ isAce c = false /\ Forall (fun x => isAce x = true) aces.
Proof.
  induction l as [| x l IH] using rev_ind; intros H; [now apply Exists_nil in H |].
  destruct (isAce x) eqn:Hx.
  - apply Exists_app in H as [H | H].
    + destruct (IH H) as (body & c & aces & -> & Hc & Hall).
      exists body, c, (aces ++ [x]). split; [now rewrite <- app_assoc | split; [exact Hc |]].
      apply Forall_app. split; [exact Hall | now constructor].
    + apply Exists_cons in H as [H | H]; [congruence | now apply Exists_nil in H].
  - exists l, x, []. split; [reflexivity | split; [exact Hx | constructor]].
Qed.

(** One round more than the pile has cards is all the loop ever needs. *)
Lemma seedLoop_fuel_complete (m : nat) (d : list CardData) (c : CardData) r :
  seedLoop m d c = Some r -> seedLoop (S (length d)) d c = Some r.
Proof.
  intros H. destruct (isAce c) eqn:Hc.
  - destruct (decide (Exists (fun x => isAce x = false) d)) as [He | Hne].
    + destruct (split_top_aces d He) as (body & x & aces & -> & Hx & Hall).
      assert (Hs : seedLoop (S (length (body ++ x :: aces))) (body ++ x :: aces) c
                   = Some (aces ++ c :: body, x)).
      { apply seedLoop_aces; auto. rewrite length_app. simpl. lia. }
      rewrite Hs.
      pose proof (seedLoop_fuel_mono _ (m + S (length (body ++ x :: aces))) _ _ _ H) as H1.
      pose proof (seedLoop_fuel_mono _ (m + S (length (body ++ x :: aces))) _ _ _ Hs) as H2.
      rewrite H1 in H2 by lia. symmetry. apply H2. lia.
    + rewrite seedLoop_all_aces in H; [discriminate |].
      constructor; [exact Hc |]. apply Forall_forall. intros y Hy.
      destruct (isAce y) eqn:Hy'; [reflexivity |]. exfalso. apply Hne.
      apply Exists_exists. eauto.
  - destruct m; [discriminate |]. simpl in *. now rewrite Hc in *.
Qed.

Lemma createDeck_Permutation (w : World) : createDeck w ≡ₚ orderedDeck w.
Proof. unfold createDeck. exact (shuffle_Permutation w (orderedDeck w)). Qed.

Lemma createDeck_length (w : World) : length (createDeck w) = 52.
Proof. rewrite (Permutation_length (createDeck_Permutation w)). reflexivity. Qed.

Lemma createDeck_faces (w : World) : map face (createDeck w) ≡ₚ domain52.
Proof. rewrite <- (orderedDeck_faces w). apply Permutation_map, createDeck_Permutation. Qed.

Lemma createDeck_ids (w : World) : NoDup (map id (createDeck w)).
Proof.
  eapply NoDup_Permutation_proper; [| apply (orderedDeck_ids w)].
  apply Permutation_map, createDeck_Permutation.
Qed.

(** What is left of a fresh deck after the two hands are dealt holds a card
    that is not an Ace. *)
Lemma createDeck_rest_not_all_aces (w : World) :
  Exists (fun x => isAce x = false) (drop 16 (createDeck w)).
Proof.
  generalize (createDeck_faces w) (createDeck_length w).
  generalize (createDeck w) as d. intros d Hp Hlen.
  destruct (decide (Exists (fun x => isAce x = false) (drop 16 d)))
    as [He | Hne]; [exact He | exfalso].
  assert (Hnd : NoDup (map face (drop 16 d))).
  { rewrite <- (take_drop 16 d), map_app in Hp.
    assert (Hall : NoDup (map face (take 16 d) ++ map face (drop 16 d))).
    { rewrite Hp. apply domain52_NoDup. }
    now apply NoDup_app in Hall as (_ & _ & H). }
  assert (Hincl : incl (map face (drop 16 d)) (map (fun s => (s, RA)) SUITS)).
  { intros f Hf. apply in_map_iff in Hf as [c [<- Hc]].
    assert (Ha : isAce c = true).
    { destruct (isAce c) eqn:Hc'; [reflexivity |]. exfalso. apply Hne.
      apply Exists_exists. exists c. split; [now apply list_elem_of_In | exact Hc']. }
    apply isAce_true in Ha. unfold face. rewrite Ha.
    destruct (suit c); simpl; tauto. }
  apply NoDup_ListNoDup in Hnd. apply NoDup_incl_length in Hincl; [| exact Hnd].
  rewrite length_map, length_drop, Hlen in Hincl. simpl in Hincl. lia.
Qed.

(** The shape of a fresh deal: the hands are the first two runs of 8 cards
    of the shuffled deck, the seed is the topmost card of the rest that is
    not an Ace, and the Aces above it are moved to the bottom. *)
Lemma startGame_shape (w : World) :
  exists state' seed aces body,
    startGame w = Some state'
    /\ length (deck state') = 35
    /\ length (playerHand state') = 8
    /\ length (aiHand state') = 8
    /\ discardPile state' = [seed]
    /\ rank seed <> RA
    /\ status state' = playing
    /\ playerHand state' = take 8 (createDeck w)
    /\ aiHand state' = take 8 (drop 8 (createDeck w))
    /\ drop 16 (createDeck w) = body ++ seed :: aces
    /\ Forall (fun x => rank x = RA) aces
    /\ deck state' = aces ++ body.
Proof.
  destruct (split_top_aces _ (createDeck_rest_not_all_aces w))
    as (body & seed & aces & Hrest & Hseed & Haces).
  pose proof (createDeck_length w) as Hd.
  unfold startGame. revert Hrest Hd.
  generalize (createDeck w) as d. intros d Hrest Hd.
  assert (Hlen : length body + S (length aces) = 36).
  { apply (f_equal length) in Hrest.
    rewrite length_drop, Hd, length_app in Hrest. simpl in Hrest. lia. }
  assert (Hp : length (take 8 d) = 8) by (rewrite length_take; lia).
  assert (Ha : length (take 8 (drop 8 d)) = 8) by (rewrite length_take, length_drop; lia).
  assert (Hr : rank seed <> RA) by now apply isAce_false.
  assert (Hall : Forall (fun x => rank x = RA) aces).
  { eapply Forall_impl; [exact Haces |]. intros x. apply isAce_true. }
  rewrite drop_drop. change (8 + 8) with 16. rewrite Hrest.
  destruct aces as [| a aces _] using rev_ind.
  - rewrite pop_snoc. cbn [seedLoop]. rewrite Hseed.
    eexists _, seed, [], body. split; [reflexivity |].
    cbn [deck playerHand aiHand discardPile status length] in *.
    repeat apply conj; first [reflexivity | assumption | lia].
  - replace (body ++ seed :: aces ++ [a]) with ((body ++ seed :: aces) ++ [a])
      by now rewrite <- app_assoc.
    rewrite pop_snoc.
    apply Forall_app in Haces as [Haces Hace]. apply Forall_inv in Hace.
    rewrite (seedLoop_aces aces _ body a seed Haces Hace Hseed)
      by (rewrite length_app; simpl; lia).
    eexists _, seed, (aces ++ [a]), body. split; [reflexivity |].
    cbn [deck playerHand aiHand discardPile status].
    rewrite length_app in Hlen. cbn [length] in Hlen.
    repeat apply conj;
      first [reflexivity | assumption | now rewrite <- app_assoc
            | rewrite !length_app; cbn [length]; lia].
Qed.

(** C9: whatever the shuffle gives, a new game has 35 cards in the draw
    pile, 8 in each hand and one card, not an Ace, in the discard pile; the
    Aces that lay on top of the dealt-from deck are at the bottom of the draw
    pile and the card below them is the seed. *)
Theorem start_game_deal (w : World) (state : GameState) :
  exists state' seed aces body,
    gameReducer w state START_GAME = Some state'
    /\ length (deck state') = 35
    /\ length (playerHand state') = 8
    /\ length (aiHand state') = 8
    /\ discardPile state' = [seed]
    /\ rank seed <> RA
    /\ status state' = playing
    /\ playerHand state' = take 8 (createDeck w)
    /\ aiHand state' = take 8 (drop 8 (createDeck w))
    /\ drop 16 (createDeck w) = body ++ seed :: aces
    /\ Forall (fun x => rank x = RA) aces
    /\ deck state' = aces ++ body.
Proof. exact (startGame_shape w). Qed.

(** *** Card conservation *)

Lemma zonesComplete_Permutation (state state' : GameState) :
  zones state' ≡ₚ zones state -> zonesComplete state -> zonesComplete state'.
Proof.
  intros Hp [Hf Hid]. split.
  - rewrite <- Hf. now apply Permutation_map.
  - eapply NoDup_Permutation_proper; [| exact Hid]. now apply Permutation_map.
Qed.

Lemma zonesComplete_length (state : GameState) :
  zonesComplete state ->
  length (deck state) + length (playerHand state) + length (aiHand state)
  + length (discardPile state) = 52.
Proof.
  intros [Hf _]. apply Permutation_length in Hf.
  rewrite length_map in Hf. unfold zones in Hf. rewrite !length_app in Hf.
  change (length domain52) with 52 in Hf. lia.
Qed.

(** Filtering a hand on the identity of a held card takes out that card and
    nothing else, identities being distinct. *)
Lemma filter_otherId_Permutation (card : CardData) (hand : list CardData) :
  NoDup (map id hand) -> In card hand ->
  hand ≡ₚ card :: List.filter (otherId card) hand.
Proof.
  induction hand as [| c hand IH]; simpl; intros Hnd Hin; [destruct Hin |].
  apply NoDup_cons in Hnd as [Hc Hnd].
  assert (Hother : forall x, In x hand -> otherId c x = true).
  { intros x Hx. unfold otherId. apply negb_true_iff, String.eqb_neq.
    intros Heq. apply Hc. rewrite <- Heq. apply list_elem_of_In, in_map, Hx. }
  destruct Hin as [-> | Hin].
  - unfold otherId at 1. rewrite String.eqb_refl. simpl.
    apply Permutation_cons; [reflexivity |].
    clear IH Hc Hnd. induction hand as [| x hand IH]; simpl; [reflexivity |].
    rewrite (Hother x) by now left.
    apply Permutation_cons; [reflexivity |]. apply IH.
    intros y Hy. apply Hother. now right.
  - assert (Hcard : otherId card c = true).
    { unfold otherId. apply negb_true_iff, String.eqb_neq.
      intros Heq. apply Hc. rewrite Heq. apply list_elem_of_In, in_map, Hin. }
    rewrite Hcard. rewrite (IH Hnd Hin) at 1. apply perm_swap.
Qed.

Lemma playerPlay_zones (state : GameState) (card : CardData) :
  NoDup (map id (zones state)) -> In card (playerHand state) ->
  zones (playerPlay state card) ≡ₚ zones state.
Proof.
  intros Hnd Hin. unfold zones in *. cbn [playerPlay deck playerHand aiHand discardPile].
  rewrite !map_app in Hnd.
  apply NoDup_app in Hnd as (_ & _ & Hnd). apply NoDup_app in Hnd as (Hnd & _ & _).
  rewrite (filter_otherId_Permutation card (playerHand state) Hnd Hin) at 2.
  solve_Permutation.
Qed.

Lemma aiPlay_zones (state : GameState) (card : CardData) :
  NoDup (map id (zones state)) -> In card (aiHand state) ->
  zones (aiPlay state card) ≡ₚ zones state.
Proof.
  intros Hnd Hin. unfold zones in *. cbn [aiPlay deck playerHand aiHand discardPile].
  rewrite !map_app in Hnd.
  apply NoDup_app in Hnd as (_ & _ & Hnd). apply NoDup_app in Hnd as (_ & _ & Hnd).
  apply NoDup_app in Hnd as (Hnd & _ & _).
  rewrite (filter_otherId_Permutation card (aiHand state) Hnd Hin) at 2.
  solve_Permutation.
Qed.

Lemma draw_zones (state : GameState) (who : Participant) :
  zones (draw state who) ≡ₚ zones state.
Proof.
  unfold draw. destruct (bool_decide (length (deck state) = 0)); [reflexivity |].
  destruct (pop (deck state)) as [[drawnCard newDeck] |] eqn:Hp; [| reflexivity].
  apply pop_Some in Hp. unfold zones. destruct who;
    cbn [deck playerHand aiHand discardPile]; rewrite Hp; solve_Permutation.
Qed.

Lemma deal_Permutation (d body aces : list CardData) (seed : CardData) :
  drop 16 d = body ++ seed :: aces ->
  (aces ++ body) ++ take 8 d ++ take 8 (drop 8 d) ++ [seed] ≡ₚ d.
Proof.
  intros Hrest.
  rewrite <- (take_drop 8 d) at 3.
  rewrite <- (take_drop 8 (drop 8 d)) at 2.
  rewrite drop_drop. change (8 + 8) with 16. rewrite Hrest.
  solve_Permutation.
Qed.

Lemma startGame_zones (w : World) (state state' : GameState) :
  gameReducer w state START_GAME = Some state' -> zonesComplete state'.
Proof.
  intros Hs.
  destruct (startGame_shape w)
    as (s & seed & aces & body & Hs' & _ & _ & _ & Hdisc & _ & _ & Hp & Ha & Hrest & _ & Hdeck).
  assert (Hrun : gameReducer w state START_GAME = Some s) by exact Hs'.
  rewrite Hs in Hrun. injection Hrun as ->.
  pose proof (deal_Permutation (createDeck w) body aces seed Hrest) as Hz.
  rewrite <- Hdeck, <- Hp, <- Ha, <- Hdisc in Hz. fold (zones s) in Hz.
  split.
  - rewrite <- (createDeck_faces w). exact (Permutation_map face Hz).
  - eapply NoDup_Permutation_proper; [| exact (createDeck_ids w)].
    exact (Permutation_map id Hz).
Qed.

Lemma gameReducer_zones (w : World) (state state' : GameState) (action : GameAction) :
  zonesComplete state -> held state action ->
  gameReducer w state action = Some state' -> zonesComplete state'.
Proof.
  intros Hz Hheld Hstep.
  destruct action as [| card | card | who | s | | v | who];
    [exact (startGame_zones w state state' Hstep) | ..];
    cbn [gameReducer held] in Hstep, Hheld; injection Hstep as <-.
  - eapply zonesComplete_Permutation; [| exact Hz].
    apply playerPlay_zones; [apply Hz | exact Hheld].
  - eapply zonesComplete_Permutation; [| exact Hz].
    apply aiPlay_zones; [apply Hz | exact Hheld].
  - eapply zonesComplete_Permutation; [| exact Hz]. apply draw_zones.
  - exact Hz.
  - destruct Hheld.
  - exact Hz.
  - exact Hz.
Qed.

(** C2 (as amended): in every state of a game in progress the zone sizes add
    up to 52, the faces in the four zones are the 52 pairs of the domain
    once each, and no card identity occurs twice. *)
Theorem zones_conserved (state : GameState) :
  reachable state ->
  length (deck state) + length (playerHand state) + length (aiHand state)
  + length (discardPile state) = 52
  /\ Permutation (map face (zones state)) domain52
  /\ NoDup (map id (zones state)).
Proof.
  intros Hr.
  assert (Hz : zonesComplete state).
  { induction Hr as [w s s' Hs | w s s' a _ IH Hheld Hstep].
    - exact (startGame_zones w s s' Hs).
    - exact (gameReducer_zones w s s' a IH Hheld Hstep). }
  split; [exact (zonesComplete_length state Hz) | exact Hz].
Qed.

Lemma zones_conserved_witness :
  length (deck twoMovesIn) + length (playerHand twoMovesIn) + length (aiHand twoMovesIn)
  + length (discardPile twoMovesIn) = 52
  /\ Permutation (map face (zones twoMovesIn)) domain52
  /\ NoDup (map id (zones twoMovesIn)).
Proof.
  apply (zones_conserved twoMovesIn).
  apply (reach_step w0 (draw freshGame player) twoMovesIn (AI_PLAY kingHearts)).
  - apply (reach_step w0 freshGame (draw freshGame player) (DRAW player)).
    + apply (reach_start w0 initialState freshGame). vm_compute. reflexivity.
    + exact I.
    + reflexivity.
  - vm_compute. do 3 right. left. reflexivity.
  - reflexivity.
Defined.

(** C2 as stated fails on the transition function.  In the fresh deal of
    the sample world the king of diamonds lies in the draw pile; played as
    the player's card on the king of spades it is added to the discard pile
    while no hand loses a card, so the zones hold 53 cards and its identity
    twice.  A return to the menu leaves all four zones empty. *)
Lemma zones_not_conserved_counterexample :
  gameReducer w0 initialState START_GAME = Some freshGame
  /\ ~ In kingDiamonds (playerHand freshGame)
  /\ isValidMove (Some kingDiamonds) (topCard freshGame) (currentSuit freshGame) = true
  /\ ((fun s => length (zones s)) <$> gameReducer w0 freshGame (PLAYER_PLAY kingDiamonds))
     = Some 53
  /\ ((fun s => length (List.filter (fun c => String.eqb (id c) (id kingDiamonds)) (zones s)))
      <$> gameReducer w0 freshGame (PLAYER_PLAY kingDiamonds)) = Some 2
  /\ (zones <$> gameReducer w0 freshGame SET_MENU) = Some [].
Proof.
  split; [vm_compute; reflexivity |].
  split.
  { intros H. apply (in_map id) in H. vm_compute in H.
    repeat (destruct H as [H | H]; [discriminate H |]). exact H. }
  repeat split; vm_compute; reflexivity.
Qed.

(** *** The callers keep the invariant *)

Lemma getAiMove_In r hand top s (c : CardData) :
  getAiMove r hand top s = Some c -> In c hand.
Proof.
  destruct top as [top |]; [| now rewrite getAiMove_no_top].
  destruct (normalMoves hand (Some top) s) as [| n ns] eqn:Hn.
  - rewrite (getAiMove_wild r hand top s Hn). intros H. now apply find_some in H.
  - destruct (getAiMove_normal r hand top s) as [c' [Hc' Hin]]; [now rewrite Hn |].
    rewrite Hc'. intros H. injection H as <-. now apply normalMoves_spec in Hin.
Qed.

Lemma handCardClick_zones (w : World) (state state' : GameState) (i : nat) :
  zonesComplete state -> handCardClick w state i = Some state' -> zonesComplete state'.
Proof.
  intros Hz. unfold handCardClick, handlePlayerPlay.
  destruct (playerHand state !! i) as [card |] eqn:Hi;
    [| intros H; injection H as <-; exact Hz].
  assert (Hin : In card (playerHand state)).
  { apply list_elem_of_In. eapply list_elem_of_lookup_2. exact Hi. }
  repeat match goal with
         | |- context [if ?b then _ else _] => destruct b
         end;
    try (intros H; injection H as <-; exact Hz).
  exact (gameReducer_zones w state state' (PLAYER_PLAY card) Hz Hin).
Qed.

Lemma drawPileClick_zones (w : World) (state state' : GameState) :
  zonesComplete state -> drawPileClick w state = Some state' -> zonesComplete state'.
Proof.
  intros Hz. unfold drawPileClick.
  repeat match goal with
         | |- context [if ?b then _ else _] => destruct b
         end;
    try (intros H; injection H as <-; exact Hz).
  exact (gameReducer_zones w state state' (DRAW player) Hz I).
Qed.

Lemma suitPickerClick_zones (w : World) (state state' : GameState) (s : Suit) :
  zonesComplete state -> suitPickerClick w state s = Some state' -> zonesComplete state'.
Proof.
  intros Hz. unfold suitPickerClick. destruct (showSuitPicker state).
  - exact (gameReducer_zones w state state' (SET_SUIT s) Hz I).
  - intros H. injection H as <-. exact Hz.
Qed.

Lemma aiEffect_zones (w : World) (state state' : GameState) :
  zonesComplete state -> aiEffect w state = Some state' -> zonesComplete state'.
Proof.
  intros Hz. unfold aiEffect.
  destruct (_ && _); [| intros H; injection H as <-; exact Hz].
  cbn [dispatchAll gameReducer]. unfold aiTimerDispatches.
  destruct (_ || _); [intros H; injection H as <-; exact Hz |].
  destruct (getAiMove _ _ _ _) as [move |] eqn:Hm.
  - apply getAiMove_In in Hm.
    assert (Hplay : zonesComplete (aiPlay (setAiThinking state true) move)).
    { eapply zonesComplete_Permutation; [| exact Hz].
      apply (aiPlay_zones (setAiThinking state true) move); [apply Hz | exact Hm]. }
    destruct (isAce move); cbn [app dispatchAll gameReducer];
      intros H; injection H as <-; exact Hplay.
  - destruct (0 <? length (deck state)); cbn [dispatchAll gameReducer];
      intros H; injection H as <-; [| exact Hz].
    eapply zonesComplete_Permutation; [| exact Hz].
    apply (draw_zones (setAiThinking state true) ai).
Qed.

(** *** More on the deck *)

Lemma shuffle_short (w : World) (deck : list CardData) :
  length deck <= 1 -> shuffle w deck = deck.
Proof.
  destruct deck as [| x [| y l]]; simpl; intros H; [reflexivity | reflexivity | lia].
Qed.

(** X1: [shuffle] returns a rearrangement of its input: the same cards with
    the same multiplicities, hence as many; a deck of at most one card comes
    back as it is. *)
Theorem shuffle_rearranges (w : World) (deck : list CardData) :
  shuffle w deck ≡ₚ deck
  /\ length (shuffle w deck) = length deck
  /\ (forall c, In c (shuffle w deck) <-> In c deck)
  /\ (length deck <= 1 -> shuffle w deck = deck).
Proof.
  pose proof (shuffle_Permutation w deck) as Hp.
  split; [exact Hp | split; [exact (Permutation_length Hp) | split]].
  - intros c. split; apply Permutation_in; [exact Hp | symmetry; exact Hp].
  - apply shuffle_short.
Qed.

Lemma orderedDeck_each_face_once (w : World) (s : Suit) (r : Rank) :
  length (filter (fun c => face c = (s, r)) (orderedDeck w)) = 1.
Proof. destruct s, r; reflexivity. Qed.

(** X2: whatever the random numbers and the clock, [createDeck] returns 52
    cards in which every (suit, rank) pair occurs exactly once and no two
    cards share an identity. *)
Theorem createDeck_complete (w : World) :
  length (createDeck w) = 52
  /\ (forall s r, length (filter (fun c => face c = (s, r)) (createDeck w)) = 1)
  /\ NoDup (map id (createDeck w))
  /\ (forall c1 c2, In c1 (createDeck w) -> In c2 (createDeck w) ->
                    id c1 = id c2 -> c1 = c2).
Proof.
  split; [apply createDeck_length | split; [| split; [apply createDeck_ids |]]].
  - intros s r. rewrite (createDeck_Permutation w). apply orderedDeck_each_face_once.
  - pose proof (createDeck_ids w) as Hnd. revert Hnd.
    generalize (createDeck w) as d. intros d Hnd c1 c2 H1 H2 Heq.
    apply list_elem_of_In, list_elem_of_lookup in H1 as [i Hi].
    apply list_elem_of_In, list_elem_of_lookup in H2 as [j Hj].
    assert (Hij : i = j).
    { eapply NoDup_lookup; [exact Hnd | |].
      - change (map id d) with (id <$> d). rewrite list_lookup_fmap, Hi. reflexivity.
      - change (map id d) with (id <$> d). rewrite list_lookup_fmap, Hj. simpl. now rewrite Heq. }
    subst j. congruence.
Qed.

Lemma orderedDeck_cards (w : World) :
  Forall (fun c => value c = rankValue (rank c)
                   /\ (exists n, id c = mkId (rank c) (suit c) n (now w n) /\ n < 52))
         (orderedDeck w).
Proof.
  unfold orderedDeck. cbn -[newCard].
  repeat (constructor; [split; [reflexivity | eexists; split; [reflexivity | lia]] |]).
  constructor.
Qed.

Lemma rankValue_range (r : Rank) : (1 <= rankValue r <= 10)%Z.
Proof. destruct r; simpl; lia. Qed.

(** X3: every card [createDeck] returns carries the value of its rank (1 for
    an Ace, 10 for J, Q and K, the number otherwise, so between 1 and 10) and
    an identity composed of its own rank and suit, a counter below 52 and
    the clock at that count. *)
Theorem createDeck_cards (w : World) (c : CardData) :
  In c (createDeck w) ->
  value c = rankValue (rank c)
  /\ (1 <= value c <= 10)%Z
  /\ (value c = 1%Z <-> rank c = RA)
  /\ (exists n, id c = mkId (rank c) (suit c) n (now w n) /\ n < 52).
Proof.
  intros Hin.
  assert (Hin' : In c (orderedDeck w)).
  { eapply Permutation_in; [exact (createDeck_Permutation w) | exact Hin]. }
  pose proof (orderedDeck_cards w) as Hall. rewrite List.Forall_forall in Hall.
  destruct (Hall c Hin') as [Hv Hid]. split; [exact Hv |]. rewrite Hv.
  split; [apply rankValue_range | split; [| exact Hid]].
  destruct (rank c); simpl; split; intros H; try reflexivity; try discriminate H.
Qed.


Lemma createDeck_cards_witness :
  value kingHearts = rankValue (rank kingHearts)
  /\ (1 <= value kingHearts <= 10)%Z
  /\ (value kingHearts = 1%Z <-> rank kingHearts = RA)
  /\ (exists n, id kingHearts = mkId (rank kingHearts) (suit kingHearts) n (now w0 n)
                /\ n < 52).
Proof.
  apply (createDeck_cards w0 kingHearts).
  apply (Permutation_in _ (Permutation_sym (createDeck_Permutation w0))).
  vm_compute. do 12 right. left. reflexivity.
Defined.

(** *** More on move legality and the chooser *)

(** X4: legality needs no declared suit to be symmetric between two cards
    that are not Aces; a card of the top card's rank is legal whatever suit
    is declared; an Ace is legal on anything, any card is legal when there
    is no top card, and no card is no legal move. *)
Theorem isValidMove_shape :
  (forall c top : CardData, rank c <> RA -> rank top <> RA ->
     isValidMove (Some c) (Some top) None = isValidMove (Some top) (Some c) None)
  /\ (forall (c top : CardData) s, rank c = rank top ->
        isValidMove (Some c) (Some top) s = true)
  /\ (forall (c top : CardData) (s : Suit), rank c <> RA -> rank c <> rank top ->
        isValidMove (Some c) (Some top) (Some s) = bool_decide (suit c = s))
  /\ (forall (c : CardData) top s, rank c = RA -> isValidMove (Some c) top s = true)
  /\ (forall (c : CardData) s, isValidMove (Some c) None s = true)
  /\ (forall top s, isValidMove None top s = false).
Proof.
  repeat apply conj.
  - intros c top Hc Ht. apply isAce_false in Hc, Ht. unfold isValidMove.
    rewrite Hc, Ht. f_equal; apply bool_decide_ext; split; congruence.
  - intros c top s H. unfold isValidMove. destruct (isAce c); [reflexivity |].
    rewrite (bool_decide_eq_true_2 _ H). apply orb_true_r.
  - intros c top s Hc Hr. apply isAce_false in Hc. unfold isValidMove. rewrite Hc.
    rewrite (bool_decide_eq_false_2 _ Hr). apply orb_false_r.
  - intros c top s H. now apply isValidMove_ace.
  - intros c s. unfold isValidMove. now destruct (isAce c).
  - reflexivity.
Qed.

Lemma floorMul_one (u : U01) : floorMul u 1 = 0.
Proof. pose proof (floorMul_lt u 1). lia. Qed.

(** X5: the chooser returns nothing for an empty hand and nothing when
    there is no top card, although [isValidMove] then accepts every card;
    the random number matters only when two or more cards that are not Aces
    can be played; and when none can, the Ace chosen is the first one of the
    hand. *)
Theorem getAiMove_edges :
  (forall r top s, getAiMove r [] top s = None)
  /\ (forall r hand s,
        getAiMove r hand None s = None
        /\ forall c, In c hand -> isValidMove (Some c) None s = true)
  /\ (forall r r' hand (top : CardData) s,
        length (normalMoves hand (Some top) s) <= 1 ->
        getAiMove r hand (Some top) s = getAiMove r' hand (Some top) s)
  /\ (forall r before a after (top : CardData) s,
        (forall c, In c (before ++ a :: after) ->
                   rank c <> RA -> isValidMove (Some c) (Some top) s = false) ->
        (forall c, In c before -> rank c <> RA) -> rank a = RA ->
        getAiMove r (before ++ a :: after) (Some top) s = Some a).
Proof.
  repeat apply conj.
  - reflexivity.
  - intros r hand s. split; [apply getAiMove_no_top |].
    intros c _. unfold isValidMove. now destruct (isAce c).
  - intros r r' hand top s Hlen. unfold getAiMove.
    destruct hand as [| h hand']; [reflexivity |].
    destruct (normalMoves (h :: hand') (Some top) s) as [| n [| n' ns]];
      [reflexivity | | simpl in Hlen; lia].
    cbn [length]. now rewrite !floorMul_one.
  - intros r before a after top s Hnone Hbefore Ha.
    rewrite getAiMove_wild.
    + induction before as [| b before IH]; simpl.
      * apply isAce_true in Ha. now rewrite Ha.
      * assert (Hb : isAce b = false) by (apply isAce_false, Hbefore; now left).
        rewrite Hb. apply IH.
        -- intros c Hc. apply Hnone. now right.
        -- intros c Hc. apply Hbefore. now right.
    + destruct (normalMoves _ _ _) as [| n ns] eqn:Hn; [reflexivity |].
      assert (Hin : In n (normalMoves (before ++ a :: after) (Some top) s))
        by (rewrite Hn; now left).
      apply normalMoves_spec in Hin as (Hin & Hr & Hv).
      rewrite (Hnone n Hin Hr) in Hv. discriminate.
Qed.


(** *** More on single transitions *)

Lemma seedLoop_result (fuel : nat) :
  forall (d : list CardData) (c : CardData) d' seed,
    seedLoop fuel d c = Some (d', seed) ->
    isAce seed = false /\ seed :: d' ≡ₚ c :: d.
Proof.
  induction fuel as [| fuel IH]; intros d c d' seed H; [discriminate |].
  simpl in H. destruct (isAce c) eqn:Hc.
  - destruct (pop (c :: d)) as [[x d1] |] eqn:Hp; [| discriminate].
    apply pop_Some in Hp. destruct (IH _ _ _ _ H) as [Hs Hperm].
    split; [exact Hs |]. rewrite Hperm, Hp. apply Permutation_cons_append.
  - injection H as <- <-. split; [exact Hc | reflexivity].
Qed.

(** X6: the seed loop of [START_GAME] ends exactly when the first discard
    or some card of the pile is not an Ace; it then leaves a seed that is
    not an Ace and a pile that, with the seed, holds the cards it began with;
    and it never needs more rounds than the pile has cards, plus one. *)
Theorem seedLoop_ends_iff (d : list CardData) (c : CardData) :
  ((exists fuel r, seedLoop fuel d c = Some r)
   <-> Exists (fun x => rank x <> RA) (c :: d))
  /\ (forall fuel d' seed, seedLoop fuel d c = Some (d', seed) ->
        rank seed <> RA /\ seed :: d' ≡ₚ c :: d /\ length d' = length d)
  /\ (forall fuel r, seedLoop fuel d c = Some r ->
        seedLoop (S (length d)) d c = Some r).
Proof.
  split; [| split].
  - split.
    + intros (fuel & [d' seed] & H). destruct (seedLoop_result _ _ _ _ _ H) as [Hs Hp].
      apply isAce_false in Hs.
      assert (Hin : In seed (c :: d)).
      { eapply Permutation_in; [exact Hp | now left]. }
      apply Exists_exists. exists seed. split; [now apply list_elem_of_In | exact Hs].
    + intros He. destruct (isAce c) eqn:Hc.
      * apply Exists_cons in He as [He | He]; [apply isAce_true in Hc; contradiction |].
        assert (He' : Exists (fun x => isAce x = false) d).
        { eapply Exists_impl; [exact He |]. intros x. apply isAce_false. }
        destruct (split_top_aces d He') as (body & x & aces & -> & Hx & Hall).
        exists (length aces + 2), (aces ++ c :: body, x).
        now apply seedLoop_aces.
      * exists 1, (d, c). simpl. now rewrite Hc.
  - intros fuel d' seed H. destruct (seedLoop_result _ _ _ _ _ H) as [Hs Hp].
    split; [now apply isAce_false | split; [exact Hp |]].
    apply Permutation_length in Hp. simpl in Hp. lia.
  - intros fuel r. apply seedLoop_fuel_complete.
Qed.

(** X7: a draw from a draw pile that is not empty moves its last card to
    the end of the drawing participant's hand and passes the turn to the
    other participant, whoever's turn it was; the discard pile, the other
    hand, the status, the declared suit and the suit picker stay as they
    are. *)
Theorem draw_moves_top_card (w : World) (state : GameState) (who : Participant) :
  deck state <> [] ->
  exists state' drawnCard,
    gameReducer w state (DRAW who) = Some state'
    /\ deck state = deck state' ++ [drawnCard]
    /\ hands state'
       = match who with
         | player => (playerHand state ++ [drawnCard], aiHand state)
         | ai => (playerHand state, aiHand state ++ [drawnCard])
         end
    /\ turn state' = match who with player => ai | ai => player end
    /\ discardPile state' = discardPile state
    /\ status state' = status state
    /\ currentSuit state' = currentSuit state
    /\ showSuitPicker state' = showSuitPicker state
    /\ isAiThinking state' = isAiThinking state.
Proof.
  intros Hne. destruct (deck state) as [| x l _] eqn:Hd using rev_ind; [now destruct Hne |].
  exists (draw state who), x. cbn [gameReducer]. unfold draw. rewrite Hd, pop_snoc.
  rewrite bool_decide_eq_false_2 by (rewrite length_app; simpl; lia).
  now destruct who.
Qed.

Lemma draw_moves_top_card_witness :
  exists state' drawnCard,
    gameReducer w0 playerToMove (DRAW player) = Some state'
    /\ deck playerToMove = deck state' ++ [drawnCard]
    /\ hands state' = (playerHand playerToMove ++ [drawnCard], aiHand playerToMove)
    /\ turn state' = ai
    /\ discardPile state' = discardPile playerToMove
    /\ status state' = status playerToMove
    /\ currentSuit state' = currentSuit playerToMove
    /\ showSuitPicker state' = showSuitPicker playerToMove
    /\ isAiThinking state' = isAiThinking playerToMove.
Proof.
  apply (draw_moves_top_card w0 playerToMove player). discriminate.
Defined.

Lemma filter_otherId_self (card : CardData) :
  List.filter (otherId card) [card] = [].
Proof. simpl. unfold otherId. now rewrite String.eqb_refl. Qed.

Lemma filter_otherId_nil_iff (card : CardData) (hand : list CardData) :
  NoDup (map id hand) -> In card hand ->
  (List.filter (otherId card) hand = [] <-> hand = [card]).
Proof.
  intros Hnd Hin. split.
  - intros He. pose proof (filter_otherId_Permutation card hand Hnd Hin) as Hp.
    rewrite He in Hp. now apply Permutation_singleton_r in Hp.
  - intros ->. apply filter_otherId_self.
Qed.

(** X8: in a running game a play of a held card, identities in the hand
    being distinct, ends the game exactly when it was the last card of the
    acting hand; the game then is over with the turn at the player and the
    suit picker left closed by the player's play, Ace or not. *)
Theorem play_ends_game_iff_last_card (w : World) (state : GameState) (card : CardData) :
  status state = playing ->
  (NoDup (map id (playerHand state)) -> In card (playerHand state) ->
   exists state',
     gameReducer w state (PLAYER_PLAY card) = Some state'
     /\ (status state' = gameOver <-> playerHand state = [card])
     /\ (status state' = playing <-> playerHand state <> [card])
     /\ (playerHand state = [card] ->
         playerHand state' = [] /\ turn state' = player /\ showSuitPicker state' = false))
  /\ (NoDup (map id (aiHand state)) -> In card (aiHand state) ->
      exists state',
        gameReducer w state (AI_PLAY card) = Some state'
        /\ (status state' = gameOver <-> aiHand state = [card])
        /\ (status state' = playing <-> aiHand state <> [card])
        /\ (aiHand state = [card] -> aiHand state' = [] /\ turn state' = player)).
Proof.
  intros Hst. split; intros Hnd Hin;
    pose proof (filter_otherId_nil_iff card _ Hnd Hin) as [H1 H2];
    eexists; (split; [reflexivity |]);
    cbn [playerPlay aiPlay status playerHand aiHand turn showSuitPicker];
    rewrite Hst;
    destruct (List.filter (otherId card) _) as [| x l] eqn:Hf; cbn [length];
    [rewrite bool_decide_eq_true_2 by reflexivity
    | rewrite bool_decide_eq_false_2 by discriminate
    | rewrite bool_decide_eq_true_2 by reflexivity
    | rewrite bool_decide_eq_false_2 by discriminate];
    cbn [orb andb negb];
    repeat split; intros; auto; try discriminate;
    try (exfalso; auto; fail);
    try match goal with
        | H : _ = [card] |- _ => discriminate (H2 H)
        | |- _ <> [card] => let He := fresh in intros He; discriminate (H2 He)
        end.
Qed.


Lemma play_ends_game_iff_last_card_witness :
  (exists state',
     gameReducer w0 playerLastCard (PLAYER_PLAY fiveClubs) = Some state'
     /\ (status state' = gameOver <-> playerHand playerLastCard = [fiveClubs])
     /\ (status state' = playing <-> playerHand playerLastCard <> [fiveClubs])
     /\ (playerHand playerLastCard = [fiveClubs] ->
         playerHand state' = [] /\ turn state' = player /\ showSuitPicker state' = false))
  /\ (exists state',
        gameReducer w0 playerLastCard (AI_PLAY sevenDiamonds) = Some state'
        /\ (status state' = gameOver <-> aiHand playerLastCard = [sevenDiamonds])
        /\ (status state' = playing <-> aiHand playerLastCard <> [sevenDiamonds])
        /\ (aiHand playerLastCard = [sevenDiamonds] ->
            aiHand state' = [] /\ turn state' = player)).
Proof.
  destruct (play_ends_game_iff_last_card w0 playerLastCard fiveClubs eq_refl) as [Hp _].
  destruct (play_ends_game_iff_last_card w0 playerLastCard sevenDiamonds eq_refl) as [_ Ha].
  split.
  - apply Hp; [apply (bool_decide_unpack _); vm_compute; exact I | simpl; now left].
  - apply Ha; [apply (bool_decide_unpack _); vm_compute; exact I | simpl; now left].
Defined.

Lemma filter_otherId_no_match (card : CardData) (hand : list CardData) :
  (forall c, In c hand -> id c <> id card) -> List.filter (otherId card) hand = hand.
Proof.
  induction hand as [| c hand IH]; simpl; intros H; [reflexivity |].
  unfold otherId at 1. rewrite (proj2 (String.eqb_neq _ _)) by (apply H; now left).
  simpl. f_equal. apply IH. intros x Hx. apply H. now right.
Qed.

Lemma filter_otherId_not_In (card : CardData) (hand : list CardData) (c : CardData) :
  In c (List.filter (otherId card) hand) -> In c hand /\ id c <> id card.
Proof.
  rewrite filter_In. unfold otherId. rewrite negb_true_iff, String.eqb_neq. tauto.
Qed.

(** X9: a play always puts the card on top of the discard pile and leaves
    the draw pile and the other hand alone.  From the acting hand it takes
    the cards with the played card's identity: exactly the played card, once,
    when it is held and the identities in the hand are distinct; nothing
    when no card of the hand has that identity. *)
Theorem play_removes_played_card (w : World) (state : GameState) (card : CardData) :
  exists state',
    gameReducer w state (PLAYER_PLAY card) = Some state'
    /\ topCard state' = Some card
    /\ discardPile state' = discardPile state ++ [card]
    /\ deck state' = deck state
    /\ aiHand state' = aiHand state
    /\ sublist (playerHand state') (playerHand state)
    /\ (forall c, In c (playerHand state') -> id c <> id card)
    /\ (NoDup (map id (playerHand state)) -> In card (playerHand state) ->
        playerHand state ≡ₚ card :: playerHand state'
        /\ S (length (playerHand state')) = length (playerHand state))
    /\ ((forall c, In c (playerHand state) -> id c <> id card) ->
        playerHand state' = playerHand state).
Proof.
  eexists. split; [reflexivity |].
  cbn [playerPlay topCard discardPile deck aiHand playerHand].
  repeat apply conj; try reflexivity.
  - unfold topCard. cbn [discardPile]. apply last_snoc.
  - induction (playerHand state) as [| c l IH]; simpl; [constructor |].
    destruct (otherId card c); now constructor.
  - intros c Hc. now apply filter_otherId_not_In in Hc.
  - intros Hnd Hin. pose proof (filter_otherId_Permutation card _ Hnd Hin) as Hp.
    split; [exact Hp |]. apply Permutation_length in Hp. simpl in Hp. lia.
  - apply filter_otherId_no_match.
Qed.

(** X10: once the game is over, no intent other than a new game or a return
    to the menu brings the status back: it stays game-over. *)
Theorem gameOver_status_stays (w : World) (state : GameState) (action : GameAction) :
  status state = gameOver ->
  action <> START_GAME -> action <> SET_MENU ->
  exists state', gameReducer w state action = Some state' /\ status state' = gameOver.
Proof.
  intros Hst Hs Hm. destruct action as [| card | card | who | s | | v | who];
    try contradiction; eexists; (split; [reflexivity |]);
    cbn [playerPlay aiPlay setSuit setAiThinking skipTurn status]; try exact Hst.
  - rewrite Hst. now destruct (bool_decide _).
  - rewrite Hst. now destruct (bool_decide _).
  - unfold draw. destruct (bool_decide _); [exact Hst |].
    destruct (pop (deck state)) as [[x l] |]; [| exact Hst]. now destruct who.
Qed.

Lemma gameOver_status_stays_witness :
  exists state', gameReducer w0 playerWon (DRAW player) = Some state'
                 /\ status state' = gameOver.
Proof.
  apply (gameOver_status_stays w0 playerWon (DRAW player)); [reflexivity | discriminate ..].
Defined.

Lemma startGame_fields (w : World) (state' : GameState) :
  startGame w = Some state' ->
  status state' = playing
  /\ length (playerHand state') = 8 /\ length (aiHand state') = 8
  /\ turn state' = player /\ currentSuit state' = None
  /\ isAiThinking state' = false /\ showSuitPicker state' = false.
Proof.
  unfold startGame.
  pose proof (createDeck_length w) as Hd. revert Hd.
  generalize (createDeck w) as d. intros d Hd.
  destruct (pop (drop 8 (drop 8 d))) as [[c l] |]; [| discriminate].
  destruct (seedLoop _ _ _) as [[d' seed] |]; [| discriminate].
  intros Hs. injection Hs as <-.
  cbn [status playerHand aiHand turn currentSuit isAiThinking showSuitPicker initialState].
  rewrite !length_take, length_drop. repeat split; lia.
Qed.

Lemma startGame_hands (w : World) (state state' : GameState) :
  gameReducer w state START_GAME = Some state' ->
  status state' = playing
  /\ length (playerHand state') = 8 /\ length (aiHand state') = 8
  /\ turn state' = player /\ currentSuit state' = None
  /\ isAiThinking state' = false /\ showSuitPicker state' = false.
Proof.
  intros Hs. destruct (startGame_shape w) as (s & seed & aces & body & Hs' & _).
  assert (Hrun : gameReducer w state START_GAME = Some s) by exact Hs'.
  rewrite Hs in Hrun. injection Hrun as ->.
  exact (startGame_fields w s Hs').
Qed.

(** X11: whatever intents are dispatched from the initial state, legal or
    not, a state whose status is playing has a card in each hand: a play
    that empties a hand always ends the game. *)
Theorem running_game_has_cards (state : GameState) :
  dispatched state -> status state = playing ->
  playerHand state <> [] /\ aiHand state <> [].
Proof.
  induction 1 as [| w s s' a Hd IH Hstep]; [discriminate |].
  destruct a as [| card | card | who | su | | v | who].
  - intros _. destruct (startGame_hands w s s' Hstep) as (_ & Hp & Ha & _).
    split; intros He; rewrite He in *; discriminate.
  - injection Hstep as <-. cbn [playerPlay status playerHand aiHand].
    destruct (List.filter _ _) as [| x l]; cbn [length].
    + rewrite bool_decide_eq_true_2 by reflexivity. discriminate.
    + rewrite bool_decide_eq_false_2 by discriminate. intros Hst.
      split; [discriminate | now apply IH].
  - injection Hstep as <-. cbn [aiPlay status playerHand aiHand].
    destruct (List.filter _ _) as [| x l]; cbn [length].
    + rewrite bool_decide_eq_true_2 by reflexivity. discriminate.
    + rewrite bool_decide_eq_false_2 by discriminate. intros Hst.
      split; [now apply IH | discriminate].
  - injection Hstep as <-. unfold draw.
    destruct (bool_decide _); [exact IH |].
    destruct (pop (deck s)) as [[x l] |]; [| exact IH].
    destruct who; cbn [status playerHand aiHand]; intros Hst;
      destruct (IH Hst) as [Hp Ha]; split; auto;
      intros He; now apply app_eq_nil in He as [_ He].
  - injection Hstep as <-. exact IH.
  - injection Hstep as <-. discriminate.
  - injection Hstep as <-. exact IH.
  - injection Hstep as <-. exact IH.
Qed.


Lemma running_game_has_cards_witness :
  playerHand twoMovesIn <> [] /\ aiHand twoMovesIn <> [].
Proof.
  apply (running_game_has_cards twoMovesIn); [| reflexivity].
  apply (disp_step w0 (draw freshGame player) twoMovesIn (AI_PLAY kingHearts));
    [| reflexivity].
  apply (disp_step w0 freshGame (draw freshGame player) (DRAW player)); [| reflexivity].
  apply (disp_step w0 initialState freshGame START_GAME disp_init).
  vm_compute. reflexivity.
Defined.

(** *** The component as a whole *)

Lemma uiStep_ClickStart (w : World) (state state' : GameState) :
  uiStep w state ClickStart = Some state' ->
  gameReducer w state START_GAME = Some state'.
Proof.
  intros Hstep. destruct (startGame_shape w) as (s & seed & aces & body & Hs & _).
  assert (Hrun : uiStep w state ClickStart = Some s) by exact Hs.
  rewrite Hstep in Hrun. injection Hrun as ->. exact Hs.
Qed.

Lemma uiStep_zones (w : World) (state state' : GameState) (e : UiEvent) :
  zonesComplete state -> uiStep w state e = Some state' ->
  state' = initialState \/ zonesComplete state'.
Proof.
  intros Hz. destruct e as [| | i | | s |]; intros Hstep.
  - right. exact (startGame_zones w state state' (uiStep_ClickStart w state state' Hstep)).
  - left. cbn [uiStep gameReducer] in Hstep. now injection Hstep as <-.
  - right. exact (handCardClick_zones w state state' i Hz Hstep).
  - right. exact (drawPileClick_zones w state state' Hz Hstep).
  - right. exact (suitPickerClick_zones w state state' s Hz Hstep).
  - right. exact (aiEffect_zones w state state' Hz Hstep).
Qed.

Lemma uiStep_initial (w : World) (state' : GameState) (e : UiEvent) :
  uiStep w initialState e = Some state' ->
  state' = initialState \/ zonesComplete state'.
Proof.
  destruct e as [| | i | | s |]; intros Hstep.
  - right. exact (startGame_zones w initialState state' (uiStep_ClickStart w _ _ Hstep)).
  - left. cbn [uiStep gameReducer] in Hstep. now injection Hstep as <-.
  - left. destruct i; cbn in Hstep; now injection Hstep as <-.
  - left. cbn in Hstep. now injection Hstep as <-.
  - left. cbn in Hstep. now injection Hstep as <-.
  - left. cbn in Hstep. now injection Hstep as <-.
Qed.

(** X12: every state the component can reach through its buttons, card and
    pile clicks, suit picker and the computer's turns is either the initial
    (menu) state or a state in which the four zones hold the 52 cards of the
    domain once each, 52 in all, with no identity twice. *)
Theorem ui_conserves_cards (state : GameState) :
  uiReachable state ->
  state = initialState
  \/ (length (deck state) + length (playerHand state) + length (aiHand state)
      + length (discardPile state) = 52
      /\ Permutation (map face (zones state)) domain52
      /\ NoDup (map id (zones state))).
Proof.
  intros Hr.
  assert (H : state = initialState \/ zonesComplete state).
  { induction Hr as [| w s s' e _ IH Hstep]; [now left |].
    destruct IH as [-> | Hz].
    - exact (uiStep_initial w s' e Hstep).
    - exact (uiStep_zones w s s' e Hz Hstep). }
  destruct H as [H | Hz]; [now left | right].
  split; [exact (zonesComplete_length state Hz) | exact Hz].
Qed.


Lemma ui_conserves_cards_witness :
  twoMovesIn = initialState
  \/ (length (deck twoMovesIn) + length (playerHand twoMovesIn)
      + length (aiHand twoMovesIn) + length (discardPile twoMovesIn) = 52
      /\ Permutation (map face (zones twoMovesIn)) domain52
      /\ NoDup (map id (zones twoMovesIn))).
Proof.
  apply (ui_conserves_cards twoMovesIn).
  apply (ui_step w0 (draw freshGame player) twoMovesIn AiTimer);
    [| vm_compute; reflexivity].
  apply (ui_step w0 freshGame (draw freshGame player) ClickDrawPile);
    [| vm_compute; reflexivity].
  apply (ui_step w0 initialState freshGame ClickStart ui_init).
  vm_compute. reflexivity.
Defined.

Lemma getAiMove_sound r hand (top : CardData) s (c : CardData) :
  getAiMove r hand (Some top) s = Some c ->
  isValidMove (Some c) (Some top) s = true.
Proof.
  destruct (normalMoves hand (Some top) s) as [| n ns] eqn:Hn.
  - rewrite (getAiMove_wild r hand top s Hn). intros H. apply find_some in H as [_ Ha].
    apply isValidMove_ace. now apply isAce_true.
  - destruct (getAiMove_normal r hand top s) as [c' [Hc' Hin]]; [now rewrite Hn |].
    rewrite Hc'. intros H. injection H as <-. now apply normalMoves_spec in Hin.
Qed.

Lemma getAiMove_None_invalid r hand (top : CardData) s :
  getAiMove r hand (Some top) s = None ->
  forall c, In c hand -> isValidMove (Some c) (Some top) s = false.
Proof.
  intros H c Hin. apply not_true_is_false. intros Hv.
  destruct (normalMoves hand (Some top) s) as [| n ns] eqn:Hn.
  - rewrite (getAiMove_wild r hand top s Hn) in H.
    destruct (isAce c) eqn:Hc.
    + now rewrite (find_none _ _ H c Hin) in Hc.
    + assert (Hc' : In c (normalMoves hand (Some top) s)).
      { apply normalMoves_spec. apply isAce_false in Hc. auto. }
      now rewrite Hn in Hc'.
  - destruct (getAiMove_normal r hand top s) as [c' [Hc' _]]; [now rewrite Hn |].
    congruence.
Qed.

(** X13: when it is the computer's turn in a running game with a top card
    and no evaluation under way, the computer's turn ends with the thinking
    flag down and did one of three things.  It played a card of its hand
    that is a valid move, which is now the top card (and if that was not an
    Ace the turn is the player's and no suit is declared; if it was an Ace a
    suit is declared).  Or it held no valid move and drew the last card of
    the draw pile, the turn passing to the player.  Or it held no valid
    move, the draw pile was empty, and it only passed the turn. *)
Theorem ai_turn_is_legal (w : World) (state : GameState) (top : CardData) :
  status state = playing -> turn state = ai -> isAiThinking state = false ->
  topCard state = Some top ->
  exists state',
    aiEffect w state = Some state'
    /\ isAiThinking state' = false
    /\ playerHand state' = playerHand state
    /\ ((exists move,
           In move (aiHand state)
           /\ isValidMove (Some move) (Some top) (currentSuit state) = true
           /\ discardPile state' = discardPile state ++ [move]
           /\ aiHand state' = List.filter (otherId move) (aiHand state)
           /\ deck state' = deck state
           /\ (rank move <> RA -> turn state' = player /\ currentSuit state' = None)
           /\ (rank move = RA -> exists s, currentSuit state' = Some s))
        \/ ((forall c, In c (aiHand state) ->
                       isValidMove (Some c) (Some top) (currentSuit state) = false)
            /\ (exists drawnCard,
                  deck state = deck state' ++ [drawnCard]
                  /\ aiHand state' = aiHand state ++ [drawnCard])
            /\ discardPile state' = discardPile state
            /\ turn state' = player /\ status state' = playing
            /\ currentSuit state' = currentSuit state)
        \/ ((forall c, In c (aiHand state) ->
                       isValidMove (Some c) (Some top) (currentSuit state) = false)
            /\ deck state = [] /\ deck state' = []
            /\ aiHand state' = aiHand state
            /\ discardPile state' = discardPile state
            /\ turn state' = player /\ status state' = playing
            /\ currentSuit state' = currentSuit state)).
Proof.
  intros Hst Ht Hth Htop. unfold aiEffect, aiTimerDispatches.
  rewrite Hst, Ht, Hth, Htop. cbn [bool_decide decide_rel andb orb negb].
  rewrite !bool_decide_eq_true_2 by reflexivity. cbn [andb orb negb].
  destruct (getAiMove _ _ _ _) as [move |] eqn:Hm.
  - pose proof (getAiMove_In _ _ _ _ _ Hm) as Hin.
    pose proof (getAiMove_sound _ _ _ _ _ Hm) as Hv.
    destruct (isAce move) eqn:Ha; cbn [app dispatchAll gameReducer];
      eexists; (split; [reflexivity |]);
      cbn [setAiThinking setSuit aiPlay isAiThinking playerHand aiHand discardPile deck
           turn currentSuit];
      (split; [reflexivity |]); (split; [reflexivity |]); left; exists move;
      rewrite ?Ha; repeat apply conj; try reflexivity; try assumption.
    + intros Hr. apply isAce_true in Ha. contradiction.
    + intros _. eexists. reflexivity.
    + intros _. split; reflexivity.
    + intros Hr. apply isAce_false in Ha. contradiction.
  - pose proof (getAiMove_None_invalid _ _ _ _ Hm) as Hnone.
    destruct (deck state) as [| x l _] eqn:Hd using rev_ind.
    + cbn [length Nat.ltb Nat.leb dispatchAll gameReducer].
      eexists. split; [reflexivity |].
      cbn [setAiThinking skipTurn isAiThinking playerHand aiHand discardPile deck turn
           status currentSuit].
      split; [reflexivity |]. split; [reflexivity |]. right. right.
      repeat apply conj; try reflexivity; try assumption.
    + assert (Hlt : (0 <? length (l ++ [x])) = true).
      { apply Nat.ltb_lt. rewrite length_app. simpl. lia. }
      rewrite Hlt. cbn [dispatchAll gameReducer]. unfold draw.
      cbn [setAiThinking deck]. rewrite Hd, pop_snoc.
      rewrite bool_decide_eq_false_2 by (rewrite length_app; simpl; lia).
      eexists. split; [reflexivity |].
      cbn [setAiThinking isAiThinking playerHand aiHand discardPile deck turn status
           currentSuit].
      split; [reflexivity |]. split; [reflexivity |]. right. left.
      repeat apply conj; try reflexivity; try assumption.
      exists x. split; reflexivity.
Qed.


Lemma ai_turn_is_legal_witness :
  exists state',
    aiEffect w0 aiToMove = Some state'
    /\ isAiThinking state' = false
    /\ playerHand state' = playerHand aiToMove
    /\ ((exists move,
           In move (aiHand aiToMove)
           /\ isValidMove (Some move) (Some nineHearts) (currentSuit aiToMove) = true
           /\ discardPile state' = discardPile aiToMove ++ [move]
           /\ aiHand state' = List.filter (otherId move) (aiHand aiToMove)
           /\ deck state' = deck aiToMove
           /\ (rank move <> RA -> turn state' = player /\ currentSuit state' = None)
           /\ (rank move = RA -> exists s, currentSuit state' = Some s))
        \/ ((forall c, In c (aiHand aiToMove) ->
                       isValidMove (Some c) (Some nineHearts) (currentSuit aiToMove) = false)
            /\ (exists drawnCard,
                  deck aiToMove = deck state' ++ [drawnCard]
                  /\ aiHand state' = aiHand aiToMove ++ [drawnCard])
            /\ discardPile state' = discardPile aiToMove
            /\ turn state' = player /\ status state' = playing
            /\ currentSuit state' = currentSuit aiToMove)
        \/ ((forall c, In c (aiHand aiToMove) ->
                       isValidMove (Some c) (Some nineHearts) (currentSuit aiToMove) = false)
            /\ deck aiToMove = [] /\ deck state' = []
            /\ aiHand state' = aiHand aiToMove
            /\ discardPile state' = discardPile aiToMove
            /\ turn state' = player /\ status state' = playing
            /\ currentSuit state' = currentSuit aiToMove)).
Proof.
  apply (ai_turn_is_legal w0 aiToMove nineHearts); reflexivity.
Defined.

Lemma handlePlayerPlay_accepts (w : World) (state : GameState) (card : CardData) :
  status state = playing -> turn state = player -> isAiThinking state = false ->
  isValidMove (Some card) (topCard state) (currentSuit state) = true ->
  handlePlayerPlay w state card = Some (playerPlay state card).
Proof.
  intros Hst Ht Hth Hv. unfold handlePlayerPlay. rewrite Hst, Ht, Hth, Hv.
  rewrite !bool_decide_eq_true_2 by reflexivity. reflexivity.
Qed.

Lemma topCard_playerPlay (state : GameState) (card : CardData) :
  topCard (playerPlay state card) = Some card.
Proof. unfold topCard. cbn [playerPlay discardPile]. apply last_snoc. Qed.

(** X14: a valid play by the player in turn, of a card that is not an Ace
    and not the last of the hand, is carried out: the card is the new top
    card, the turn is the computer's, no suit is declared any more, and what
    may follow is exactly an Ace or a card of that card's suit or rank. *)
Theorem player_play_accepted (w : World) (state : GameState) (card : CardData) :
  status state = playing -> turn state = player -> isAiThinking state = false ->
  isValidMove (Some card) (topCard state) (currentSuit state) = true ->
  rank card <> RA ->
  List.filter (otherId card) (playerHand state) <> [] ->
  exists state',
    handlePlayerPlay w state card = Some state'
    /\ topCard state' = Some card
    /\ playerHand state' = List.filter (otherId card) (playerHand state)
    /\ turn state' = ai
    /\ currentSuit state' = None
    /\ showSuitPicker state' = false
    /\ status state' = playing
    /\ (forall c : CardData,
          isValidMove (Some c) (topCard state') (currentSuit state') = true
          <-> rank c = RA \/ suit c = suit card \/ rank c = rank card).
Proof.
  intros Hst Ht Hth Hv Hr Hne. exists (playerPlay state card).
  split; [now apply handlePlayerPlay_accepts |].
  split; [apply topCard_playerPlay |].
  rewrite topCard_playerPlay. apply isAce_false in Hr.
  cbn [playerPlay playerHand turn currentSuit showSuitPicker status].
  rewrite Hr, Hst.
  rewrite bool_decide_eq_false_2 by (intros Hl; apply Hne; now apply length_zero_iff_nil).
  repeat apply conj; try reflexivity.
  intros c. unfold isValidMove. destruct (isAce c) eqn:Hc.
  - apply isAce_true in Hc. tauto.
  - apply isAce_false in Hc. rewrite orb_true_iff, !bool_decide_eq_true. tauto.
Qed.

Lemma player_play_accepted_witness :
  exists state',
    handlePlayerPlay w0 playerCanFollow fiveClubs = Some state'
    /\ topCard state' = Some fiveClubs
    /\ playerHand state' = List.filter (otherId fiveClubs) (playerHand playerCanFollow)
    /\ turn state' = ai
    /\ currentSuit state' = None
    /\ showSuitPicker state' = false
    /\ status state' = playing
    /\ (forall c : CardData,
          isValidMove (Some c) (topCard state') (currentSuit state') = true
          <-> rank c = RA \/ suit c = suit fiveClubs \/ rank c = rank fiveClubs).
Proof.
  apply (player_play_accepted w0 playerCanFollow fiveClubs);
    try reflexivity; discriminate.
Defined.


(** X15: the player's Ace followed by the choice of a suit: the Ace is the
    top card, the chosen suit is declared, the picker is closed, the turn is
    the computer's, and what may follow is exactly an Ace or a card of the
    chosen suit. *)
Theorem player_ace_then_suit (w : World) (state : GameState) (card : CardData) (s : Suit) :
  status state = playing -> turn state = player -> isAiThinking state = false ->
  rank card = RA ->
  List.filter (otherId card) (playerHand state) <> [] ->
  exists state1 state2,
    handlePlayerPlay w state card = Some state1
    /\ showSuitPicker state1 = true
    /\ suitPickerClick w state1 s = Some state2
    /\ topCard state2 = Some card
    /\ currentSuit state2 = Some s
    /\ showSuitPicker state2 = false
    /\ turn state2 = ai
    /\ status state2 = playing
    /\ hands state2 = (List.filter (otherId card) (playerHand state), aiHand state)
    /\ (forall c : CardData,
          isValidMove (Some c) (topCard state2) (currentSuit state2) = true
          <-> rank c = RA \/ suit c = s).
Proof.
  intros Hst Ht Hth Hr Hne.
  assert (Hpick : showSuitPicker (playerPlay state card) = true).
  { cbn [playerPlay showSuitPicker]. apply isAce_true in Hr. rewrite Hr.
    now rewrite bool_decide_eq_false_2
      by (intros Hl; apply Hne; now apply length_zero_iff_nil). }
  exists (playerPlay state card), (setSuit (playerPlay state card) s).
  split; [apply handlePlayerPlay_accepts; auto; now apply isValidMove_ace |].
  split; [exact Hpick |].
  split; [unfold suitPickerClick; now rewrite Hpick |].
  assert (Htop : topCard (setSuit (playerPlay state card) s) = Some card)
    by apply topCard_playerPlay.
  split; [exact Htop |]. rewrite Htop.
  cbn [setSuit playerPlay currentSuit showSuitPicker turn status hands playerHand aiHand].
  rewrite Hst.
  rewrite bool_decide_eq_false_2 by (intros Hl; apply Hne; now apply length_zero_iff_nil).
  repeat apply conj; try reflexivity.
  intros c. unfold isValidMove. destruct (isAce c) eqn:Hc.
  - apply isAce_true in Hc. tauto.
  - apply isAce_false in Hc. rewrite orb_true_iff, !bool_decide_eq_true.
    rewrite Hr. tauto.
Qed.

Lemma player_ace_then_suit_witness :
  exists state1 state2,
    handlePlayerPlay w0 playerToMove aceSpades = Some state1
    /\ showSuitPicker state1 = true
    /\ suitPickerClick w0 state1 diamonds = Some state2
    /\ topCard state2 = Some aceSpades
    /\ currentSuit state2 = Some diamonds
    /\ showSuitPicker state2 = false
    /\ turn state2 = ai
    /\ status state2 = playing
    /\ hands state2
       = (List.filter (otherId aceSpades) (playerHand playerToMove), aiHand playerToMove)
    /\ (forall c : CardData,
          isValidMove (Some c) (topCard state2) (currentSuit state2) = true
          <-> rank c = RA \/ suit c = diamonds).
Proof.
  apply (player_ace_then_suit w0 playerToMove aceSpades diamonds);
    try reflexivity; discriminate.
Defined.

(** X16: when it is the player's turn, the suit picker is closed, the draw
    pile is empty and no card of the player's hand is a valid move, nothing
    the component offers but a new game or the menu changes the state: the
    player's clicks are turned down, a draw finds no card, and the computer
    does not move. *)
Theorem player_without_move_is_stuck (w : World) (state : GameState) (e : UiEvent) :
  turn state = player ->
  showSuitPicker state = false ->
  deck state = [] ->
  (forall c, In c (playerHand state) ->
             isValidMove (Some c) (topCard state) (currentSuit state) = false) ->
  e <> ClickStart -> e <> ClickMenu ->
  uiStep w state e = Some state.
Proof.
  intros Ht Hp Hd Hnone Hs Hm.
  destruct e as [| | i | | s |]; try contradiction; cbn [uiStep].
  - unfold handCardClick. destruct (playerHand state !! i) as [card |] eqn:Hi;
      [| reflexivity].
    destruct (_ || _); [reflexivity |].
    apply handlePlayerPlay_rejects. do 3 right. apply Hnone.
    apply list_elem_of_In. eapply list_elem_of_lookup_2. exact Hi.
  - unfold drawPileClick. destruct (_ || _); [reflexivity |].
    destruct (bool_decide _); [| reflexivity].
    cbn [gameReducer]. now rewrite draw_empty.
  - unfold suitPickerClick. now rewrite Hp.
  - unfold aiEffect. rewrite Ht.
    rewrite (bool_decide_eq_false_2 (player = ai)) by discriminate.
    now rewrite andb_false_r.
Qed.

Lemma player_without_move_is_stuck_witness :
  uiStep w0 playerStuck ClickDrawPile = Some playerStuck
  /\ uiStep w0 playerStuck (ClickHandCard 0) = Some playerStuck
  /\ uiStep w0 playerStuck AiTimer = Some playerStuck.
Proof.
  assert (Hnone : forall c, In c (playerHand playerStuck) ->
            isValidMove (Some c) (topCard playerStuck) (currentSuit playerStuck) = false).
  { intros c [<- | [<- | []]]; reflexivity. }
  repeat apply conj;
    apply (player_without_move_is_stuck w0 playerStuck);
    try reflexivity; try exact Hnone; discriminate.
Defined.




(** X18: a new game can be started from any state, whatever was under way:
    it is the player's turn in a running game, no suit is declared, the suit
    picker is closed, the thinking flag is down, and the first card to
    follow the seed must be an Ace or match the seed's suit or rank. *)
Theorem start_game_resets (w : World) (state : GameState) :
  exists state' seed,
    gameReducer w state START_GAME = Some state'
    /\ status state' = playing
    /\ turn state' = player
    /\ currentSuit state' = None
    /\ showSuitPicker state' = false
    /\ isAiThinking state' = false
    /\ topCard state' = Some seed
    /\ (forall c : CardData,
          isValidMove (Some c) (topCard state') (currentSuit state') = true
          <-> rank c = RA \/ suit c = suit seed \/ rank c = rank seed).
Proof.
  destruct (startGame_shape w)
    as (s & seed & aces & body & Hs & _ & _ & _ & Hdisc & _).
  destruct (startGame_fields w s Hs) as (Hst & _ & _ & Ht & Hsu & Hth & Hp).
  exists s, seed. split; [exact Hs |].
  assert (Htop : topCard s = Some seed).
  { clear Hs. unfold topCard. rewrite Hdisc. reflexivity. }
  clear Hs. rewrite Htop, Hsu.
  repeat apply conj; try assumption; try reflexivity.
  intros c. unfold isValidMove. destruct (isAce c) eqn:Hc.
  - apply isAce_true in Hc. tauto.
  - apply isAce_false in Hc. rewrite orb_true_iff, !bool_decide_eq_true. tauto.
Qed.

(** X19: whatever intents are dispatched from the initial state, legal or
    not, a state that has left the menu has a top card: the branches of
    [isValidMove] and [getAiMove] for a missing top card are not reached in
    a game. *)
Theorem game_has_top_card (state : GameState) :
  dispatched state -> status state <> menu ->
  exists top, topCard state = Some top.
Proof.
  induction 1 as [| w s s' a Hd IH Hstep]; [intros H; now destruct H |].
  destruct a as [| card | card | who | su | | v | who].
  - intros _. destruct (startGame_shape w)
      as (s0 & seed & aces & body & Hs & _ & _ & _ & Hdisc & _).
    assert (Hrun : gameReducer w s START_GAME = Some s0) by exact Hs.
    rewrite Hstep in Hrun. injection Hrun as ->.
    clear Hs Hstep. exists seed. unfold topCard. rewrite Hdisc. reflexivity.
  - injection Hstep as <-. intros _. exists card. apply topCard_playerPlay.
  - injection Hstep as <-. intros _. exists card.
    unfold topCard. cbn [aiPlay discardPile]. apply last_snoc.
  - injection Hstep as <-. unfold draw.
    destruct (bool_decide _); [exact IH |].
    destruct (pop (deck s)) as [[x l] |]; [| exact IH].
    destruct who; exact IH.
  - injection Hstep as <-. exact IH.
  - injection Hstep as <-. intros H. now destruct H.
  - injection Hstep as <-. exact IH.
  - injection Hstep as <-. exact IH.
Qed.

Lemma game_has_top_card_witness : exists top, topCard twoMovesIn = Some top.
Proof.
  apply (game_has_top_card twoMovesIn); [| vm_compute; discriminate].
  apply (disp_step w0 (draw freshGame player) twoMovesIn (AI_PLAY kingHearts));
    [| reflexivity].
  apply (disp_step w0 freshGame (draw freshGame player) (DRAW player)); [| reflexivity].
  apply (disp_step w0 initialState freshGame START_GAME disp_init).
  vm_compute. reflexivity.
Defined.
